(** * lambda_csv_processing: the cleaning routine of the employee-record pipeline

    A shallow embedding of [clean_data] (src/lambda_csv_processing.py) and of
    its three local helpers [extract_income], [assume_subdomains] and
    [standardize_dates], followed by the properties of the specification that
    concern them.

    Conventions of the embedding.
    - A Python [str] is a [string]; its characters are the code points below
      256.  [isspace] and [isnumeric_char] are Python's character classes on
      that range; [title] knows the ASCII letters only.
    - A Python exception is a value [Raise e] of the type [result].
    - A pandas column is a list of cells; a cell is [option string], [None]
      being a missing value (pandas pads short rows with it).
    - [str.replace] of pandas is used by the source with patterns that are
      literal text in every pandas version; [Series.replace] compares whole
      values. *)

From Stdlib Require Import Ascii String.
From stdpp Require Import base list strings.

Local Open Scope string_scope.
Local Open Scope list_scope.
Local Open Scope nat_scope.

(** ** Outcomes of fallible code *)

Inductive exn : Type :=
  | IndexError
  | KeyError
  | AttributeError
  | TypeError
  | ValueError
  | OverflowError
  | OutOfModel.  (* not a Python exception: the input leaves the modelled
                    fragment of a library (see [str_contains], [get_column]) *)

Inductive result (A : Type) : Type :=
  | Ok (a : A)
  | Raise (e : exn).
Arguments Ok {A} a.
Arguments Raise {A} e.

#[global] Instance result_ret : MRet result := λ A a, Ok a.
#[global] Instance result_bind : MBind result := λ A B f m,
  match m with
  | Ok a => f a
  | Raise e => Raise e
  end.
#[global] Instance result_fmap : FMap result := λ A B f m,
  match m with
  | Ok a => Ok (f a)
  | Raise e => Raise e
  end.

#[global] Instance exn_eq_dec : EqDecision exn.
Proof. solve_decision. Defined.

(** ** Python strings *)

Definition nl : string := String "010"%char EmptyString.
Definition cr : string := String "013"%char EmptyString.

(** [c in s] for a one-character [c]. *)
Fixpoint has_char (c : ascii) (s : string) : bool :=
  match s with
  | EmptyString => false
  | String a s' => Ascii.eqb a c || has_char c s'
  end.

(** [s.replace(old, new)] for a non-empty [old]: the occurrences of [old] are
    found from the left and do not overlap.  [skip] counts the characters of a
    match that are still to be dropped. *)
Fixpoint replace_from (old new : string) (skip : nat) (s : string) : string :=
  match s with
  | EmptyString => EmptyString
  | String a s' =>
      match skip with
      | S k => replace_from old new k s'
      | O =>
          if String.prefix old s
          then new +:+ replace_from old new (String.length old - 1) s'
          else String a (replace_from old new 0 s')
      end
  end.

Definition str_replace (old new s : string) : string := replace_from old new 0 s.

(** Python's [str.isspace] on one character, code points below 256. *)
Definition isspace (c : ascii) : bool :=
  let n := nat_of_ascii c in
  (((9 <=? n) && (n <=? 13)) || ((28 <=? n) && (n <=? 32))
   || (n =? 133) || (n =? 160))%nat.

Fixpoint lstrip (s : string) : string :=
  match s with
  | EmptyString => EmptyString
  | String a s' => if isspace a then lstrip s' else s
  end.

Fixpoint rstrip (s : string) : string :=
  match s with
  | EmptyString => EmptyString
  | String a s' =>
      match rstrip s' with
      | EmptyString => if isspace a then EmptyString else String a EmptyString
      | r => String a r
      end
  end.

(** [s.strip()] *)
Definition strip (s : string) : string := rstrip (lstrip s).

(** The characters with a Unicode numeric value, code points below 256: the
    ten digits, the superscripts 1, 2, 3 and the three vulgar fractions. *)
Definition isnumeric_char (c : ascii) : bool :=
  let n := nat_of_ascii c in
  (((48 <=? n) && (n <=? 57))
   || (n =? 178) || (n =? 179) || (n =? 185)
   || ((188 <=? n) && (n <=? 190)))%nat.

Fixpoint all_chars (p : ascii → bool) (s : string) : bool :=
  match s with
  | EmptyString => true
  | String a s' => p a && all_chars p s'
  end.

(** [s.isnumeric()]: false on the empty string. *)
Definition isnumeric (s : string) : bool :=
  match s with
  | EmptyString => false
  | _ => all_chars isnumeric_char s
  end.

(** [s.split(c)] for a one-character separator: never the empty list. *)
Fixpoint split (c : ascii) (s : string) : list string :=
  match s with
  | EmptyString => [EmptyString]
  | String a s' =>
      if Ascii.eqb a c then EmptyString :: split c s'
      else match split c s' with
           | h :: t => String a h :: t
           | [] => [String a EmptyString]
           end
  end.

(** [s.endswith(c)] for a one-character [c]. *)
Fixpoint endswith (c : ascii) (s : string) : bool :=
  match s with
  | EmptyString => false
  | String a EmptyString => Ascii.eqb a c
  | String _ s' => endswith c s'
  end.

(** [s.startswith(c)] for a one-character [c]. *)
Definition startswith (c : ascii) (s : string) : bool :=
  match s with
  | EmptyString => false
  | String a _ => Ascii.eqb a c
  end.

(** [s[:-1]] *)
Fixpoint drop_last (s : string) : string :=
  match s with
  | EmptyString => EmptyString
  | String _ EmptyString => EmptyString
  | String a s' => String a (drop_last s')
  end.

(** [p in s] for strings: [p] occurs in [s] as a contiguous piece. *)
Fixpoint substring_of (p s : string) : bool :=
  String.prefix p s ||
  match s with
  | EmptyString => false
  | String _ s' => substring_of p s'
  end.

(** ** Python lists indexed in place

    Reading, assigning or deleting a position that does not exist raises
    [IndexError] (the positions used by the source are never negative). *)

Definition getitem {A} (l : list A) (i : nat) : result A :=
  match l !! i with
  | Some x => Ok x
  | None => Raise IndexError
  end.

Definition setitem {A} (l : list A) (i : nat) (x : A) : result (list A) :=
  if decide (i < length l) then Ok (<[i := x]> l) else Raise IndexError.

Definition delitem {A} (l : list A) (i : nat) : result (list A) :=
  if decide (i < length l) then Ok (delete i l) else Raise IndexError.

(** ** The field repair pass: [extract_income] *)

(** The two tests of line 58. *)
Definition income_head (f4 : string) : bool :=
  isnumeric (strip (str_replace "$" EmptyString f4)).

Definition income_tail (f5 : string) : bool :=
  isnumeric (strip f5).

(** The body of the loop, on one row.  [and] evaluates [row[5]] only when the
    test on [row[4]] holds. *)
Definition extract_income_row (row : list string) : result (list string) :=
  f4 ← getitem row 4;
  if income_head f4 then
    f5 ← getitem row 5;
    if income_tail f5 then
      row1 ← setitem row 4 (f4 +:+ f5);
      f6 ← getitem row1 6;
      row2 ← setitem row1 5 f6;
      delitem row2 6
    else Ok row
  else Ok row.

(** The loop runs over every row of the table, the header row included, and
    stops at the first exception. *)
Definition extract_income (income_columns : list (list string))
  : result (list (list string)) :=
  mapM extract_income_row income_columns.

(** The row parser of line 90. *)
Definition parse_rows (raw_text : list string) : list (list string) :=
  split ","%char <$> raw_text.

(** ** Columns and the data frame *)

(** A cell of an object column: [None] is a missing value. *)
Abbreviation cell := (option string).

(** The [.str] accessor applies a string method to the strings and leaves
    missing values missing. *)
Definition str_method (f : string → string) (column : list cell) : list cell :=
  (λ c : cell, f <$> c) <$> column.

(** [Series.replace(old, new)] on whole values. *)
Definition replace_value (old new : string) (c : cell) : cell :=
  if decide (c = Some old) then Some new else c.

(** [Series.replace(mapping)] with a dict: the first key equal to the value
    decides; the keys of the maps of the source are distinct. *)
Fixpoint replace_dict (mapping : list (string * string)) (c : cell) : cell :=
  match mapping with
  | [] => c
  | (old, new) :: rest =>
      if decide (c = Some old) then Some new else replace_dict rest c
  end.

(** A frame is the ordered list of its columns, each with its label; labels
    may repeat. *)
Abbreviation frame := (list (string * list cell)).

(** [pd.DataFrame(rows, columns=header)] on lists of fields: the widest row
    must be as wide as the header, and shorter rows are padded with missing
    values. *)
Definition DataFrame (rows : list (list string)) (header : list string)
  : result frame :=
  match rows with
  | [] => Ok ((λ h, (h, [])) <$> header)
  | _ =>
      if decide (max_list (length <$> rows) = length header)
      then Ok (imap (λ j h, (h, (λ r : list string, r !! j) <$> rows)) header)
      else Raise ValueError
  end.

(** [data[name]]: [KeyError] without such a column.  With several columns of
    that label pandas hands back a frame and not a column: [dup] is what the
    use made of it raises ([AttributeError] for [.str], [OutOfModel] where
    pandas would go on with the frame). *)
Definition get_column (dup : exn) (name : string) (data : frame)
  : result (list cell) :=
  match filter (λ c, c.1 = name) data with
  | [] => Raise KeyError
  | [c] => Ok c.2
  | _ => Raise dup
  end.

(** [data[name] = column] *)
Definition set_column (name : string) (column : list cell) (data : frame)
  : frame :=
  if bool_decide (name ∈ data.*1)
  then (λ c, if decide (c.1 = name) then (name, column) else c) <$> data
  else data ++ [(name, column)].

(** One statement [data[name] = f(data[name])]. *)
Definition update_column (dup : exn) (name : string)
    (f : list cell → result (list cell)) (data : frame) : result frame :=
  column ← get_column dup name data;
  column' ← f column;
  Ok (set_column name column' data).

(** [data.rename(columns=mapping)]: a label that is a key of the mapping is
    replaced, any other label stays. *)
Definition renamed (mapping : list (string * string)) (label : string) : string :=
  default label (snd <$> (snd <$> list_find (λ kv, kv.1 = label) mapping)).

Definition rename (mapping : list (string * string)) (data : frame) : frame :=
  (λ c, (renamed mapping c.1, c.2)) <$> data.

(** ** Income (lines 95-97) *)

Definition income_apply (x : string) : string :=
  if has_char "."%char x then x else x +:+ ".00".

(** The lambda of line 96 on a cell; ["." not in x] raises on a missing
    value. *)
Definition income_apply_cell (c : cell) : result cell :=
  match c with
  | Some x => Ok (Some (income_apply x))
  | None => Raise TypeError
  end.

(** The three statements on one value. *)
Definition income_value (x : string) : string :=
  let y := income_apply (str_replace "$" EmptyString x) in
  if decide (y = ".00") then "unknown" else y.

(** The three statements on a column. *)
Definition income_column (column : list cell) : result (list cell) :=
  column2 ← mapM income_apply_cell (str_method (str_replace "$" EmptyString) column);
  Ok (replace_value ".00" "unknown" <$> column2).

Definition clean_income (data : frame) : result frame :=
  data1 ← update_column AttributeError "Income"
             (λ col, Ok (str_method (str_replace "$" EmptyString) col)) data;
  data2 ← update_column OutOfModel "Income" (mapM income_apply_cell) data1;
  update_column OutOfModel "Income"
    (λ col, Ok (replace_value ".00" "unknown" <$> col)) data2.

(** ** Country (lines 100-108) *)

Definition usa_aliases : list string :=
  ["United States"; "us"; " U.S."; "usa"; "United States of America";
   "United states"; "United Staes"; "US"].

Definition country_usa_map : list (string * string) :=
  (λ k, (k, "USA")) <$> usa_aliases.

Definition country_usa_map2 : list (string * string) :=
  (λ k, (k +:+ cr, "USA")) <$> ("USA" :: usa_aliases).

Definition country_rename : list (string * string) :=
  [("Country" +:+ nl, "Country"); ("Country" +:+ cr +:+ nl, "Country")].

Definition country_cell (c : cell) : cell :=
  replace_dict country_usa_map2
    (replace_dict country_usa_map (str_replace nl EmptyString <$> c)).

(** Lines 101-108 on one value. *)
Definition country_value (x : string) : string :=
  default EmptyString (country_cell (Some x)).

Definition country_column (column : list cell) : list cell :=
  country_cell <$> column.

Definition clean_country (data : frame) : result frame :=
  let data0 := rename country_rename data in
  data1 ← update_column AttributeError "Country"
             (λ col, Ok (str_method (str_replace nl EmptyString) col)) data0;
  data2 ← update_column OutOfModel "Country"
             (λ col, Ok (replace_dict country_usa_map <$> col)) data1;
  update_column OutOfModel "Country"
    (λ col, Ok (replace_dict country_usa_map2 <$> col)) data2.

(** ** Name (line 111) *)

Definition is_upper (c : ascii) : bool :=
  let n := nat_of_ascii c in ((65 <=? n) && (n <=? 90))%nat.
Definition is_lower (c : ascii) : bool :=
  let n := nat_of_ascii c in ((97 <=? n) && (n <=? 122))%nat.
Definition to_upper (c : ascii) : ascii :=
  if is_lower c then ascii_of_nat (nat_of_ascii c - 32) else c.
Definition to_lower (c : ascii) : ascii :=
  if is_upper c then ascii_of_nat (nat_of_ascii c + 32) else c.

(** [s.title()]: a letter that follows a letter is lowered, any other letter
    is raised.  [prev] tells whether the previous character was a letter.
    Only the ASCII letters count as letters: this is Python's [title] on
    ASCII text, and the properties that depend on the text it returns are
    stated for ASCII text. *)
Fixpoint title_from (prev : bool) (s : string) : string :=
  match s with
  | EmptyString => EmptyString
  | String a s' =>
      if is_upper a || is_lower a
      then String (if prev then to_lower a else to_upper a) (title_from true s')
      else String a (title_from false s')
  end.

Definition title (s : string) : string := title_from false s.

Definition clean_name (data : frame) : result frame :=
  update_column AttributeError "Name" (λ col, Ok (str_method title col)) data.

(** ** Age (line 122) *)

Definition age_column (column : list cell) : list cell :=
  replace_value EmptyString "unknown" <$> column.

Definition clean_age (data : frame) : result frame :=
  update_column OutOfModel "Age" (λ col, Ok (age_column col)) data.

(** ** Email (lines 64-87 and 114-116) *)

(** [Series.value_counts()]: the distinct values with their number of
    occurrences, most frequent first; values of equal frequency stay in the
    order of their first occurrence. *)
Fixpoint count_in (x : string) (l : list string) : nat :=
  match l with
  | [] => 0
  | y :: l' => (if decide (y = x) then 1 else 0) + count_in x l'
  end.

Fixpoint distinct (l : list string) : list string :=
  match l with
  | [] => []
  | x :: l' => x :: filter (λ y, y ≠ x) (distinct l')
  end.

Fixpoint insert_desc (p : string * nat) (l : list (string * nat))
  : list (string * nat) :=
  match l with
  | [] => [p]
  | q :: l' => if (q.2 <=? p.2)%nat then p :: l else q :: insert_desc p l'
  end.

Definition value_counts (l : list string) : list (string * nat) :=
  foldr insert_desc [] ((λ x, (x, count_in x l)) <$> distinct l).

(** The labels of the domain of one address (the lambda of line 67 after
    [split("@")] and [str[-1]]). *)
Definition email_labels (x : string) : list string :=
  let d := default EmptyString (last (split "@"%char x)) in
  if endswith "."%char d then split "."%char (drop_last d)
  else split "."%char d.

(** The characters with a meaning of their own in a regular expression. *)
Definition regex_meta (c : ascii) : bool := has_char c ".^$*+?{}[]\|()".

(** [Series.str.contains(pat)] on one value.  [pat] is a regular expression;
    one without special characters is searched as plain text.  Any other
    pattern is outside this model. *)
Definition str_contains (pat s : string) : result bool :=
  if all_chars (λ c, negb (regex_meta c)) pat
  then Ok (substring_of pat s)
  else Raise OutOfModel.

(** The lambdas of lines 80-81 and 85. *)
Definition fill (sub x : string) : string :=
  if endswith "."%char x then x +:+ sub else x +:+ "." +:+ sub.

(** Lines 74-75: the second label of every domain of several labels, one of
    which is [label]. *)
Definition subdomain_candidates (label : string) (domains : list (list string))
  : list string :=
  omap (λ d : list string,
          if bool_decide (label ∈ d) && bool_decide (1 < length d)
          then d !! 1 else None) domains.

(** Lines 76-77 and the default of line 85. *)
Definition most_frequent_subdomain (candidates : list string) : string :=
  match value_counts candidates with
  | (sub, _) :: _ => sub
  | [] => "com"
  end.

(** One turn of the loop of line 72; both branches of the [if] fill the same
    rows and differ in the label they append. *)
Definition fill_rows (label : string) (domains : list (list string))
    (emails_without_subdomain : list bool) (column : list string)
  : result (list string) :=
  let sub := most_frequent_subdomain (subdomain_candidates label domains) in
  hits ← mapM (str_contains label) column;
  Ok (zip_with (λ (m : bool * bool) x, if m.1 && m.2 then fill sub x else x)
        (zip emails_without_subdomain hits) column).

Fixpoint fill_loop (labels : list string) (domains : list (list string))
    (emails_without_subdomain : list bool) (column : list string)
  : result (list string) :=
  match labels with
  | [] => Ok column
  | label :: rest =>
      column' ← fill_rows label domains emails_without_subdomain column;
      fill_loop rest domains emails_without_subdomain column'
  end.

(** [assume_subdomains] on a column of strings.  The domains and the mask are
    computed once, from the stripped column, and the loop rewrites the
    column. *)
Definition assume_subdomains_str (column : list string) : result (list string) :=
  let column := strip <$> column in
  let domain_and_subdomain := email_labels <$> column in
  let emails_without_subdomain :=
    (λ d : list string, bool_decide (length d = 1)) <$> domain_and_subdomain in
  let domain_labels :=
    omap (λ d : list string, if bool_decide (length d = 1) then head d else None)
      domain_and_subdomain in
  fill_loop domain_labels domain_and_subdomain emails_without_subdomain column.

(** [assume_subdomains]: the lambda of line 67 raises on a missing value. *)
Definition assume_subdomains (column : list cell) : result (list cell) :=
  match mapM (M := option) id column with
  | None => Raise AttributeError
  | Some strings => fmap (M := list) Some <$> assume_subdomains_str strings
  end.

Definition email_column (column : list cell) : result (list cell) :=
  column2 ← assume_subdomains (str_method (str_replace "@@" "@") column);
  Ok (fmap (M := list) (replace_value ".com" "unknown") column2).

Definition clean_email (data : frame) : result frame :=
  data1 ← update_column AttributeError "Email"
             (λ col, Ok (str_method (str_replace "@@" "@") col)) data;
  data2 ← update_column AttributeError "Email" assume_subdomains data1;
  update_column OutOfModel "Email"
    (λ col, Ok (replace_value ".com" "unknown" <$> col)) data2.

(** ** Date of Birth (lines 43-53 and 119) and the whole routine *)

Section Dates.

(** [parser.parse(date, dayfirst=True).strftime('%Y-%m-%d')] belongs to the
    dateutil and datetime libraries: its outcome on a cell is a parameter. *)
Variable parse_strftime : cell → result string.

Definition standardize_date (date : cell) : result cell :=
  match parse_strftime date with
  | Ok formatted => Ok (Some formatted)
  | Raise ValueError | Raise TypeError => Ok (Some "unknown")
  | Raise e => Raise e
  end.

Definition standardize_dates (date_series : list cell) : result (list cell) :=
  mapM standardize_date date_series.

Definition clean_date (data : frame) : result frame :=
  update_column OutOfModel "Date of Birth" standardize_dates data.

(** The six column steps, in the order of the routine. *)
Inductive normalizer : Type :=
  | Income | Country | Name | Email | DateOfBirth | Age.

Definition normalize (step : normalizer) (data : frame) : result frame :=
  match step with
  | Income => clean_income data
  | Country => clean_country data
  | Name => clean_name data
  | Email => clean_email data
  | DateOfBirth => clean_date data
  | Age => clean_age data
  end.

Definition clean_data (raw_text : list string) : result frame :=
  data_income_extracted ← extract_income (parse_rows raw_text);
  header ← getitem data_income_extracted 0;
  data ← DataFrame (drop 1 data_income_extracted) header;
  data ← clean_income data;
  data ← clean_country data;
  data ← clean_name data;
  data ← clean_email data;
  data ← clean_date data;
  clean_age data.

End Dates.

(** ** Predicates used to state the properties *)

(** The column a step assigns to. *)
Definition normalizer_column (step : normalizer) : string :=
  match step with
  | Income => "Income"
  | Country => "Country"
  | Name => "Name"
  | Email => "Email"
  | DateOfBirth => "Date of Birth"
  | Age => "Age"
  end.

(** The label of a column after a step: only [rename] of the Country step
    touches labels. *)
Definition label_after (step : normalizer) (label : string) : string :=
  match step with
  | Country => renamed country_rename label
  | _ => label
  end.

(** [data'] has the labels of [data] and differs from it at most in the
    columns labelled [name]. *)
Definition keeps_others (name : string) (data data' : frame) : Prop :=
  data'.*1 = data.*1 ∧
  ∀ i n c, data !! i = Some (n, c) → n ≠ name → data' !! i = Some (n, c).

(** The numeric pattern of line 58 on a row: false when a field is absent. *)
Definition income_split (row : list string) : bool :=
  match row !! 4, row !! 5 with
  | Some f4, Some f5 => income_head f4 && income_tail f5
  | _, _ => false
  end.

(** The rows on which line 58 reads no absent field and finds no split. *)
Definition no_split_readable (row : list string) : bool :=
  match row !! 4 with
  | None => false
  | Some f4 =>
      if income_head f4 then
        match row !! 5 with
        | None => false
        | Some f5 => negb (income_tail f5)
        end
      else true
  end.

(** The values that [country_usa_map2] sends to [USA]. *)
Definition usa_aliases_cr : list string :=
  (λ k, k +:+ cr) <$> ("USA" :: usa_aliases).

(** ** The wording of the specification, where it differs from the code *)

(** "a leading [$] stripped" *)
Definition spec_strip_dollar_prefix (s : string) : string :=
  match s with
  | String "$"%char s' => s'
  | _ => s
  end.

(** "field[4] with a leading [$] stripped and surrounding whitespace trimmed
    is purely numeric AND field[5] trimmed is purely numeric" *)
Definition spec_income_split (row : list string) : bool :=
  match row !! 4, row !! 5 with
  | Some f4, Some f5 =>
      isnumeric (strip (spec_strip_dollar_prefix f4)) && isnumeric (strip f5)
  | _, _ => false
  end.

(** "strip [$] prefix; if no decimal point present, append [.00]; if the
    result is exactly [.00], replace with [unknown]" *)
Definition spec_income_value (x : string) : string :=
  let y := income_apply (spec_strip_dollar_prefix x) in
  if decide (y = ".00") then "unknown" else y.

(** "trimming a trailing [\r] artifact" *)
Definition spec_trim_cr (s : string) : string :=
  if endswith "013"%char s then drop_last s else s.

(** "matches one of the fixed USA aliases", after stripping the newlines and
    trimming the carriage return. *)
Definition spec_usa_alias (x : string) : bool :=
  bool_decide (spec_trim_cr (str_replace nl EmptyString x) ∈ usa_aliases).

(** ** Further predicates and functions used to state properties *)

(** The strings of ASCII characters, on which [title] is Python's. *)
Definition is_ascii (s : string) : bool :=
  all_chars (λ c, nat_of_ascii c <? 128) s.

(** A run of [k] signs [@]. *)
Fixpoint ats (k : nat) : string :=
  match k with
  | O => EmptyString
  | S k' => String "@" (ats k')
  end.

(** [sep.join(fields)] *)
Fixpoint join (sep : string) (fields : list string) : string :=
  match fields with
  | [] => EmptyString
  | [x] => x
  | x :: rest => x +:+ sep +:+ join sep rest
  end.

(** The number of occurrences of a character. *)
Fixpoint count_char (c : ascii) (s : string) : nat :=
  match s with
  | EmptyString => 0
  | String a s' => (if Ascii.eqb a c then 1 else 0) + count_char c s'
  end.

(** What a run of the loop keeps, [mask] being the rows it may fill. *)
Definition filled (mask : list bool) (column column' : list string) : Prop :=
  length column' = length column ∧
  ∀ i x, column !! i = Some x →
    ∃ t, column' !! i = Some (x +:+ t) ∧
         (mask !! i = Some false → t = EmptyString).

(** Every column of the frame has [n] cells. *)
Definition rectangular (n : nat) (data : frame) : Prop :=
  Forall (λ c : string * list cell, length c.2 = n) data.

(** What the routine does to the column with a given label: the statements
    of its step for the six cleaned labels, nothing for any other. *)
Definition clean_column (parse_strftime : cell → result string)
    (label : string) (column : list cell) : result (list cell) :=
  if decide (label = "Income") then income_column column
  else if decide (label = "Country") then Ok (country_column column)
  else if decide (label = "Name") then Ok (str_method title column)
  else if decide (label = "Email") then email_column column
  else if decide (label = "Date of Birth")
       then standardize_dates parse_strftime column
  else if decide (label = "Age") then Ok (age_column column)
  else Ok column.

(** A step that is one assignment [data[name] = f(data[name])] as a whole. *)
Definition assigns (name : string) (f : list cell → result (list cell))
    (data data' : frame) : Prop :=
  ∃ column column',
    get_column AttributeError name data = Ok column ∧
    f column = Ok column' ∧ data' = set_column name column' data.

(** The six cleaned labels. *)
Definition cleaned_labels : list string :=
  ["Income"; "Country"; "Name"; "Email"; "Date of Birth"; "Age"].

(** The state of the frame built from [header] and [rows] once the columns
    labelled in [done] have been assigned: the labels are the renamed ones
    and every other column still holds the fields of the rows. *)
Definition pending (header : list string) (rows : list (list string))
    (done : list string) (data : frame) : Prop :=
  data.*1 = renamed country_rename <$> header ∧
  ∀ j h, header !! j = Some h → renamed country_rename h ∉ done →
         data !! j = Some (renamed country_rename h,
                           (λ r : list string, r !! j) <$> rows).

(** ** Reading the file: [extract_data] (lines 7-30) *)

(** Iterating over a binary file gives its lines, each with its [\n]; the
    last line has none when the file does not end with one. *)
Fixpoint file_lines (content : string) : list string :=
  match content with
  | EmptyString => []
  | String a rest =>
      if Ascii.eqb a "010" then String a EmptyString :: file_lines rest
      else match file_lines rest with
           | line :: lines => String a line :: lines
           | [] => [String a EmptyString]
           end
  end.

(** [line.decode("utf-8")] on bytes below 128, which stand for themselves.
    Other bytes are outside this model: they decode to code points that
    need several bytes, or do not decode at all. *)
Definition decode_utf8 (line : string) : result string :=
  if is_ascii line then Ok line else Raise OutOfModel.

Section Storage.

(** [download_fileobj] of the bucket: the content of the object under a key
    of a bucket, or the exception of the storage client. *)
Variable download_fileobj : string → string → result string.

Definition extract_data (file_name bucket : string) : result (list string) :=
  file ← download_fileobj bucket file_name;
  mapM decode_utf8 (file_lines file).

End Storage.

(** A line of a file: not empty, and with no [\n] but at its end. *)
Definition is_line (line : string) : Prop :=
  line ≠ EmptyString ∧ has_char "010" (drop_last line) = false.

(** * Properties *)

(** ** The field repair pass *)

Lemma extract_income_row_merge (row : list string) f4 f5 f6 :
  row !! 4 = Some f4 → row !! 5 = Some f5 → row !! 6 = Some f6 →
  income_head f4 = true → income_tail f5 = true →
  extract_income_row row = Ok (take 4 row ++ (f4 +:+ f5) :: f6 :: drop 7 row).
Proof.
  intros H4 H5 H6 Hh Ht.
  do 7 (destruct row as [|? row]; [done|]).
  simpl in *. simplify_eq. unfold extract_income_row. simpl.
  rewrite Hh. simpl. rewrite Ht. simpl. unfold setitem, delitem. simpl.
  repeat (case_decide; [|lia]). simpl. by rewrite drop_0.
Qed.

Lemma extract_income_row_keep (row : list string) :
  no_split_readable row = true → extract_income_row row = Ok row.
Proof.
  unfold no_split_readable, extract_income_row, getitem.
  destruct (row !! 4) as [f4|]; [|done]. simpl.
  destruct (income_head f4); [|done].
  destruct (row !! 5) as [f5|]; [|done]. simpl.
  by destruct (income_tail f5).
Qed.

Lemma short_row_index_error (row : list string) :
  length row < 7 → no_split_readable row = false →
  extract_income_row row = Raise IndexError.
Proof.
  intros Hlen. unfold no_split_readable, extract_income_row, getitem.
  destruct (row !! 4) as [f4|] eqn:H4; [|done]. simpl.
  destruct (income_head f4); [|done].
  destruct (row !! 5) as [f5|] eqn:H5; [|done]. simpl.
  destruct (income_tail f5); [|done]. intros _.
  unfold setitem. case_decide; [|done]. simpl.
  rewrite (lookup_ge_None_2 (<[4:=f4 +:+ f5]> row) 6); [done|].
  rewrite length_insert. lia.
Qed.

(** C3 (as amended).  On a row of at least seven fields: when field 4, with
    every [$] removed and the surrounding whitespace trimmed, is numeric and
    field 5, trimmed, is numeric, the pass joins fields 4 and 5 into field 4,
    puts field 6 at position 5 and drops position 6, so that the row is one
    field shorter; otherwise the row is left as it is. *)
Theorem extract_income_row_repair (row : list string) :
  7 ≤ length row →
  ∃ f4 f5 f6 rest,
    row = take 4 row ++ f4 :: f5 :: f6 :: rest ∧
    extract_income_row row =
      Ok (if income_head f4 && income_tail f5
          then take 4 row ++ (f4 +:+ f5) :: f6 :: rest
          else row) ∧
    length (take 4 row ++ (f4 +:+ f5) :: f6 :: rest) + 1 = length row.
Proof.
  intros Hlen.
  do 7 (destruct row as [|? row]; [simpl in Hlen; lia|]).
  eexists _, _, _, row. split; [done|]. split; [|simpl; lia].
  destruct (income_head _) eqn:Hh; simpl.
  - destruct (income_tail _) eqn:Ht.
    + erewrite extract_income_row_merge; eauto.
    + apply extract_income_row_keep. unfold no_split_readable. simpl.
      by rewrite Hh, Ht.
  - apply extract_income_row_keep. unfold no_split_readable. simpl.
    by rewrite Hh.
Qed.

Lemma extract_income_row_repair_witness :
  ∃ f4 f5 f6 rest,
    ["n"; "e"; "d"; "a"; "$1"; "200"; "USA"] =
      take 4 ["n"; "e"; "d"; "a"; "$1"; "200"; "USA"] ++ f4 :: f5 :: f6 :: rest ∧
    extract_income_row ["n"; "e"; "d"; "a"; "$1"; "200"; "USA"] =
      Ok (if income_head f4 && income_tail f5
          then take 4 ["n"; "e"; "d"; "a"; "$1"; "200"; "USA"] ++ (f4 +:+ f5) :: f6 :: rest
          else ["n"; "e"; "d"; "a"; "$1"; "200"; "USA"]) ∧
    length (take 4 ["n"; "e"; "d"; "a"; "$1"; "200"; "USA"] ++ (f4 +:+ f5) :: f6 :: rest) + 1
      = length ["n"; "e"; "d"; "a"; "$1"; "200"; "USA"].
Proof. apply (extract_income_row_repair ["n"; "e"; "d"; "a"; "$1"; "200"; "USA"]). simpl. lia. Defined.

(** C3, as the specification words it, fails: a row whose field 4 holds a [$]
    that is not leading does not match the pattern of the specification, and
    the pass rewrites it all the same; and a row of six fields that matches
    the pattern is not repaired, the pass ends with [IndexError]. *)
Lemma extract_income_row_inner_dollar :
  spec_income_split ["n"; "e"; "d"; "a"; "1$2"; "3"; "x"] = false ∧
  extract_income_row ["n"; "e"; "d"; "a"; "1$2"; "3"; "x"]
    = Ok ["n"; "e"; "d"; "a"; "1$23"; "x"] ∧
  extract_income_row ["n"; "e"; "d"; "a"; "1$2"; "3"; "x"]
    ≠ Ok ["n"; "e"; "d"; "a"; "1$2"; "3"; "x"] ∧
  spec_income_split ["n"; "e"; "d"; "a"; "$1"; "200" +:+ nl] = true ∧
  extract_income_row ["n"; "e"; "d"; "a"; "$1"; "200" +:+ nl] = Raise IndexError.
Proof.
  split; [reflexivity|]. split; [reflexivity|].
  split; [vm_compute; discriminate|]. split; reflexivity.
Qed.

(** C4 (as amended).  A row of fewer than seven fields is left as it is when
    line 58 finds its fields and no split: field 4 exists and fails the
    numeric test, or fields 4 and 5 exist and field 5 fails it.  In every
    other case (fewer than five fields, five fields with a numeric field 4,
    six fields with the numeric pattern) the pass reads a position that does
    not exist and ends with [IndexError]. *)
Theorem extract_income_row_short (row : list string) :
  length row < 7 →
  extract_income_row row =
    if no_split_readable row then Ok row else Raise IndexError.
Proof.
  intros Hlen. destruct (no_split_readable row) eqn:Hr.
  - by apply extract_income_row_keep.
  - by apply short_row_index_error.
Qed.

Lemma extract_income_row_short_witness :
  extract_income_row ["n"; "e"; "d"; "a"; "$5"; "USA"] =
    (if no_split_readable ["n"; "e"; "d"; "a"; "$5"; "USA"]
     then Ok ["n"; "e"; "d"; "a"; "$5"; "USA"] else Raise IndexError)
  ∧ no_split_readable ["n"; "e"; "d"; "a"; "$5"; "USA"] = true.
Proof.
  split; [|reflexivity].
  apply (extract_income_row_short ["n"; "e"; "d"; "a"; "$5"; "USA"]). simpl. lia.
Defined.

(** C4, as the specification words it, fails: the pass has no guard.  A blank
    line gives a row of one field, and a six-field row with the numeric
    pattern is read at position 6; both end the pass with [IndexError]. *)
Lemma extract_income_short_row_raises :
  extract_income_row (split ","%char nl) = Raise IndexError ∧
  length ["n"; "e"; "d"; "a"; "$1"; "200"] < 7 ∧
  extract_income_row ["n"; "e"; "d"; "a"; "$1"; "200"] = Raise IndexError ∧
  extract_income
    (parse_rows ["Name,Email,Date of Birth,Age,Income,Country" +:+ nl; nl])
    = Raise IndexError.
Proof. repeat split; try reflexivity. simpl. lia. Qed.

Lemma no_split_readable_long (row : list string) :
  6 ≤ length row → income_split row = false → no_split_readable row = true.
Proof.
  intros Hlen. do 6 (destruct row as [|? row]; [simpl in Hlen; lia|]).
  unfold income_split, no_split_readable. simpl.
  destruct (income_head _); [|done]. simpl. by intros ->.
Qed.

Lemma extract_income_row_length (row : list string) (n : nat) :
  6 ≤ n → length row = n + (if income_split row then 1 else 0) →
  ∃ row', extract_income_row row = Ok row' ∧ length row' = n.
Proof.
  intros Hn Hlen. destruct (income_split row) eqn:Hs.
  - do 7 (destruct row as [|? row]; [simpl in Hlen; lia|]).
    unfold income_split in Hs. simpl in Hs.
    apply andb_true_iff in Hs as [Hh Ht].
    eexists. split; [by eapply extract_income_row_merge|].
    simpl in *. rewrite length_drop. lia.
  - exists row. split; [|lia].
    apply extract_income_row_keep, no_split_readable_long; [lia|done].
Qed.

(** C5 (as amended).  When the header has at least six fields and is not
    itself rewritten, and every data row has one field more than the header
    if it has the numeric pattern and as many fields as the header if it has
    not, then the pass succeeds and every data row comes out with the field
    count of the header. *)
Theorem extract_income_field_count (header : list string)
    (rows : list (list string)) :
  6 ≤ length header →
  income_split header = false →
  Forall (λ r, length r = length header + (if income_split r then 1 else 0)) rows →
  ∃ rows',
    extract_income (header :: rows) = Ok (header :: rows') ∧
    length rows' = length rows ∧
    Forall (λ r : list string, length r = length header) rows'.
Proof.
  intros Hlen Hh Hrows. unfold extract_income. simpl.
  rewrite (extract_income_row_keep header)
    by (by apply no_split_readable_long). simpl.
  induction Hrows as [|r rows Hr _ IH].
  - by exists [].
  - destruct IH as (rows' & Hrun & Hl & Hall).
    destruct (extract_income_row_length r (length header)) as (r' & Hr' & Hlr');
      [done..|].
    exists (r' :: rows'). simpl. rewrite Hr'. simpl.
    destruct (mapM extract_income_row rows) as [out|e] eqn:Hm; [|done].
    simpl in *. injection Hrun as ->.
    split; [done|]. split; [by rewrite Hl|]. by constructor.
Qed.

Lemma extract_income_field_count_witness :
  ∃ rows',
    extract_income
      (["Name"; "Email"; "Date of Birth"; "Age"; "Income"; "Country"]
       :: [["john doe"; "j@@gmail.com"; "1/2/2000"; "30"; "$1"; "200"; "us"];
           ["ann lee"; "a@gmail.com"; "3/4/1999"; "41"; "$5"; "USA"]])
      = Ok (["Name"; "Email"; "Date of Birth"; "Age"; "Income"; "Country"] :: rows') ∧
    length rows' = 2 ∧
    Forall (λ r : list string, length r = 6) rows'.
Proof.
  apply (extract_income_field_count
           ["Name"; "Email"; "Date of Birth"; "Age"; "Income"; "Country"]
           [["john doe"; "j@@gmail.com"; "1/2/2000"; "30"; "$1"; "200"; "us"];
            ["ann lee"; "a@gmail.com"; "3/4/1999"; "41"; "$5"; "USA"]]).
  - simpl. lia.
  - reflexivity.
  - repeat constructor.
Defined.

(** C5, as the specification words it, fails: the pass never compares a row
    with the header.  A row with one field too many and no split keeps its
    seven fields under a header of six, and a split row of eight fields
    comes out with seven. *)
Lemma field_count_differs_from_header :
  extract_income
    (parse_rows ["Name,Email,Date of Birth,Age,Income,Country" +:+ nl;
                 "ann lee,a@gmail.com,3/4/1999,41,$5,USA,extra" +:+ nl;
                 "cy dee,c@gmail.com,3/4/1997,,$1,200,300,us" +:+ nl])
  = Ok [["Name"; "Email"; "Date of Birth"; "Age"; "Income"; "Country" +:+ nl];
        ["ann lee"; "a@gmail.com"; "3/4/1999"; "41"; "$5"; "USA"; "extra" +:+ nl];
        ["cy dee"; "c@gmail.com"; "3/4/1997"; EmptyString; "$1200"; "300"; "us" +:+ nl]]
  ∧ length ["ann lee"; "a@gmail.com"; "3/4/1999"; "41"; "$5"; "USA"; "extra" +:+ nl]
    ≠ length ["Name"; "Email"; "Date of Birth"; "Age"; "Income"; "Country" +:+ nl].
Proof. split; [reflexivity|]. simpl. lia. Qed.

(** ** Strings: replacement *)

Lemma prefix_nil (s : string) : String.prefix EmptyString s = true.
Proof. by destruct s. Qed.

Lemma prefix_cons (a b : ascii) (s t : string) :
  String.prefix (String a s) (String b t) = Ascii.eqb a b && String.prefix s t.
Proof.
  change (String.prefix (String a s) (String b t))
    with (if ascii_dec a b then String.prefix s t else false).
  destruct (ascii_dec a b) as [->|Hne].
  - by rewrite Ascii.eqb_refl.
  - by destruct (Ascii.eqb_spec a b).
Qed.

Lemma str_replace_cons (old new : string) (a : ascii) (s : string) :
  str_replace old new (String a s) =
    if String.prefix old (String a s)
    then new +:+ replace_from old new (String.length old - 1) s
    else String a (str_replace old new s).
Proof. done. Qed.

Lemma str_replace_char_cons (c a : ascii) (s : string) :
  str_replace (String c EmptyString) EmptyString (String a s) =
    if Ascii.eqb a c
    then str_replace (String c EmptyString) EmptyString s
    else String a (str_replace (String c EmptyString) EmptyString s).
Proof.
  rewrite str_replace_cons, prefix_cons, prefix_nil, andb_true_r.
  rewrite (Ascii.eqb_sym c a). by destruct (Ascii.eqb a c).
Qed.

Lemma str_replace_char_removes (c : ascii) (s : string) :
  has_char c (str_replace (String c EmptyString) EmptyString s) = false.
Proof.
  induction s as [|a s IH]; [done|].
  rewrite str_replace_char_cons.
  destruct (Ascii.eqb a c) eqn:E; [done|]. simpl. by rewrite E.
Qed.

Lemma str_replace_char_absent (c : ascii) (s : string) :
  has_char c s = false → str_replace (String c EmptyString) EmptyString s = s.
Proof.
  induction s as [|a s IH]; [done|]. simpl.
  intros [Ha Hs]%orb_false_iff.
  rewrite str_replace_char_cons, Ha. by rewrite IH.
Qed.

Lemma has_char_app (c : ascii) (s t : string) :
  has_char c (s +:+ t) = has_char c s || has_char c t.
Proof.
  induction s as [|a s IH]; [done|]. simpl. rewrite IH. by rewrite orb_assoc.
Qed.

Lemma str_replace_char_other (c d : ascii) (s : string) :
  has_char d (str_replace (String c EmptyString) EmptyString s) =
    negb (Ascii.eqb d c) && has_char d s.
Proof.
  induction s as [|a s IH]; simpl.
  - by rewrite andb_false_r.
  - rewrite str_replace_char_cons.
    destruct (Ascii.eqb a c) eqn:E.
    + apply Ascii.eqb_eq in E as ->. rewrite IH.
      rewrite (Ascii.eqb_sym c d). by destruct (Ascii.eqb d c).
    + simpl. rewrite IH.
      destruct (Ascii.eqb_spec a d) as [->|]; [|done].
      by rewrite E.
Qed.

(** ** Loops that may raise *)

Lemma mapM_Ok_fmap {A B} (f : A → result B) (g : A → B) (l : list A) :
  Forall (λ x, f x = Ok (g x)) l → mapM f l = Ok (g <$> l).
Proof.
  induction 1 as [|x l Hx _ IH]; [done|].
  simpl. rewrite Hx. simpl. rewrite IH. done.
Qed.

Lemma mapM_cons {A B} (f : A → result B) (x : A) (l : list A) :
  mapM f (x :: l) = y ← f x; k ← mapM f l; Ok (y :: k).
Proof. done. Qed.

Lemma mapM_fmap_Ok {A B C} (f : B → result C) (h : A → B) (g : A → C)
    (xs : list A) :
  (∀ x, f (h x) = Ok (g x)) → mapM f (h <$> xs) = Ok (g <$> xs).
Proof.
  intros H. induction xs as [|x xs IH]; [done|].
  rewrite !fmap_cons, mapM_cons, H, IH. done.
Qed.

(** ** Income *)

Lemma income_apply_has_dot (y : string) : has_char "."%char (income_apply y) = true.
Proof.
  unfold income_apply. destruct (has_char "." y) eqn:E; [done|].
  rewrite has_char_app. by rewrite orb_true_r.
Qed.

Lemma income_apply_no_dollar (y : string) :
  has_char "$"%char y = false → has_char "$"%char (income_apply y) = false.
Proof.
  unfold income_apply. intros H. destruct (has_char "." y); [done|].
  rewrite has_char_app, H. done.
Qed.

Lemma income_value_unknown (x : string) :
  income_value x = "unknown" ↔
  income_apply (str_replace "$" EmptyString x) = ".00".
Proof.
  unfold income_value. case_decide as E; [done|].
  split; [|done]. intros H.
  pose proof (income_apply_has_dot (str_replace "$" EmptyString x)) as Hd.
  rewrite H in Hd. done.
Qed.

Lemma income_value_twice (x : string) :
  income_value (income_value x) =
    if decide (income_value x = "unknown") then "unknown.00" else income_value x.
Proof.
  case_decide as Hu; [by rewrite Hu|].
  assert (income_value x = income_apply (str_replace "$" EmptyString x)) as Hv.
  { unfold income_value in *. by case_decide. }
  set (z := income_apply (str_replace "$" EmptyString x)) in *.
  assert (has_char "$"%char z = false) as Hz
    by apply income_apply_no_dollar, str_replace_char_removes.
  assert (has_char "."%char z = true) as Hd by apply income_apply_has_dot.
  assert (income_apply z = z) as Hz' by (unfold income_apply; by rewrite Hd).
  rewrite Hv. unfold income_value at 1.
  rewrite (str_replace_char_absent "$" z Hz), Hz'.
  case_decide as E; [|done].
  exfalso. apply Hu. apply income_value_unknown. done.
Qed.

Lemma income_apply_cells (xs : list string) :
  mapM income_apply_cell (str_method (str_replace "$" EmptyString) (Some <$> xs))
  = Ok (Some <$> ((λ x, income_apply (str_replace "$" EmptyString x)) <$> xs)).
Proof.
  unfold str_method. rewrite <- !list_fmap_compose.
  by apply mapM_fmap_Ok.
Qed.

Lemma income_column_strings (xs : list string) :
  income_column (Some <$> xs) = Ok (Some <$> (income_value <$> xs)).
Proof.
  unfold income_column. rewrite income_apply_cells.
  simpl. f_equal. rewrite <- !list_fmap_compose. apply list_fmap_ext.
  intros _ x _. simpl. unfold replace_value, income_value.
  repeat case_decide; congruence.
Qed.

Lemma income_column_inv (column column' : list cell) :
  income_column column = Ok column' →
  ∃ xs, column = Some <$> xs.
Proof.
  unfold income_column, str_method. revert column'.
  induction column as [|c column IH]; intros column' H.
  - by exists [].
  - simpl in H. destruct c as [x|]; [|done]. simpl in H.
    destruct (mapM income_apply_cell _) as [r|e] eqn:Hm; [|done].
    destruct (IH (replace_value ".00" "unknown" <$> r)) as [xs ->].
    { simpl. done. }
    by exists (x :: xs).
Qed.

Lemma income_apply_sentinel (y : string) :
  income_apply y = ".00" ↔ y = EmptyString ∨ y = ".00".
Proof.
  unfold income_apply. split.
  - destruct (has_char "." y) eqn:E; [by right|].
    destruct y as [|a y]; [by left|].
    simpl. intros [= -> _]. done.
  - intros [->| ->]; done.
Qed.

(** C6 (as amended).  The income statements remove every [$] of a value, not
    only a leading one; a value without decimal point then gets [.00]
    appended; the value that is then exactly [.00] (the value was empty or
    [.00], up to [$] signs) becomes [unknown].  So a value made of a [$] and
    of a non-empty rest without [$] and without decimal point becomes that
    rest followed by [.00].  A column of strings is cleaned value by value. *)
Theorem income_value_spec (x : string) :
  has_char "$"%char (income_value x) = false ∧
  (income_value x = "unknown" ↔
     str_replace "$" EmptyString x = EmptyString ∨
     str_replace "$" EmptyString x = ".00") ∧
  (income_value x ≠ "unknown" →
     income_value x =
       if has_char "."%char x then str_replace "$" EmptyString x
       else str_replace "$" EmptyString x +:+ ".00") ∧
  (∀ r, x = "$" +:+ r → has_char "$"%char r = false →
        has_char "."%char r = false → r ≠ EmptyString →
        income_value x = r +:+ ".00") ∧
  (∀ xs, income_column (Some <$> xs) = Ok (Some <$> (income_value <$> xs))).
Proof.
  assert (has_char "."%char (str_replace "$" EmptyString x) = has_char "."%char x)
    as Hdot by (by rewrite str_replace_char_other).
  assert (income_value x ≠ "unknown" →
          income_value x =
            if has_char "."%char x then str_replace "$" EmptyString x
            else str_replace "$" EmptyString x +:+ ".00") as Hval.
  { intros Hu. unfold income_value in *. case_decide; [done|].
    unfold income_apply. by rewrite Hdot. }
  split; [|split; [|split; [|split]]].
  - unfold income_value. case_decide; [done|].
    apply income_apply_no_dollar, str_replace_char_removes.
  - rewrite income_value_unknown. apply income_apply_sentinel.
  - done.
  - intros r -> Hd Hp Hne.
    change ("$" +:+ r) with (String "$"%char r) in *.
    assert (str_replace "$" EmptyString (String "$"%char r) = r) as Hr.
    { rewrite str_replace_char_cons. simpl.
      by apply str_replace_char_absent. }
    assert (income_value (String "$"%char r) ≠ "unknown") as Hu.
    { rewrite income_value_unknown, income_apply_sentinel, Hr.
      intros [->| ->]; done. }
    rewrite Hval by done. rewrite Hr. simpl. by rewrite Hp.
  - apply income_column_strings.
Qed.

Lemma income_value_spec_witness : income_value "$1200" = "1200.00".
Proof.
  apply (proj1 (proj2 (proj2 (proj2 (income_value_spec "$1200")))) "1200");
    [reflexivity | reflexivity | reflexivity | discriminate].
Defined.

(** C6, as the specification words it, fails.  A lone [$] has the prefix and
    no decimal point, and comes out as [unknown], not as the stripped value
    followed by [.00]; and a [$] inside the value is removed too, which
    stripping the prefix would not do. *)
Lemma income_value_not_prefix_strip :
  income_value "$" = "unknown" ∧
  spec_strip_dollar_prefix "$" +:+ ".00" = ".00" ∧
  income_value "1$2" = "12.00" ∧
  spec_income_value "1$2" = "1$2.00".
Proof. repeat split; reflexivity. Qed.

(** ** Country *)

Lemma replace_dict_not_key (m : list (string * string)) (y : string) :
  y ∉ m.*1 → replace_dict m (Some y) = Some y.
Proof.
  induction m as [|[k v] m IH]; [done|]. simpl.
  intros [Hk Hm]%not_elem_of_cons. case_decide; [congruence|]. by apply IH.
Qed.

Lemma replace_dict_key (m : list (string * string)) (y : string) :
  y ∈ m.*1 → ∃ v, v ∈ m.*2 ∧ replace_dict m (Some y) = Some v.
Proof.
  induction m as [|[k v] m IH]; simpl.
  - by intros ?%elem_of_nil.
  - intros Hy. case_decide as E.
    + exists v. split; [by left|done].
    + apply elem_of_cons in Hy as [->|Hy]; [done|].
      destruct (IH Hy) as (w & Hw & ->). exists w. split; [by right|done].
Qed.

Lemma country_cell_cases (x : string) :
  let y := str_replace nl EmptyString x in
  (country_cell (Some x) = Some "USA" ∧ (y ∈ usa_aliases ∨ y ∈ usa_aliases_cr)) ∨
  (country_cell (Some x) = Some y ∧ (y ∉ usa_aliases) ∧ (y ∉ usa_aliases_cr)).
Proof.
  intros y. unfold country_cell.
  change (str_replace nl EmptyString <$> Some x) with (Some y).
  destruct (decide (y ∈ usa_aliases)) as [H1|H1].
  - left. split; [|by left].
    destruct (replace_dict_key country_usa_map y H1) as (v & Hv & ->).
    assert (v = "USA") as ->.
    { revert Hv. change (snd <$> country_usa_map) with (replicate 8 "USA").
      by intros [? _]%elem_of_replicate. }
    done.
  - rewrite (replace_dict_not_key country_usa_map y H1).
    destruct (decide (y ∈ usa_aliases_cr)) as [H2|H2].
    + left. split; [|by right].
      destruct (replace_dict_key country_usa_map2 y H2) as (v & Hv & ->).
      revert Hv. change (snd <$> country_usa_map2) with (replicate 9 "USA").
      by intros [-> ?]%elem_of_replicate.
    + right. by rewrite (replace_dict_not_key country_usa_map2 y H2).
Qed.

Lemma country_cell_idempotent (c : cell) :
  country_cell (country_cell c) = country_cell c.
Proof.
  destruct c as [x|]; [|done].
  destruct (country_cell_cases x) as [[-> _]|(-> & H1 & H2)]; [done|].
  set (y := str_replace nl EmptyString x) in *.
  unfold country_cell.
  change (str_replace nl EmptyString <$> Some y) with (Some (str_replace nl EmptyString y)).
  assert (str_replace nl EmptyString y = y) as ->.
  { apply (str_replace_char_absent "010"), (str_replace_char_removes "010"). }
  rewrite (replace_dict_not_key country_usa_map y H1).
  by rewrite (replace_dict_not_key country_usa_map2 y H2).
Qed.

(** C8 (as amended).  A country value that, once its [\n] characters are
    removed, is one of the eight aliases, or is [USA] or one of the aliases
    followed by [\r], becomes [USA]; every other value comes out with its
    [\n] characters removed and nothing else changed (a trailing [\r]
    stays). *)
Theorem country_value_spec (x : string) :
  country_cell (Some x) = Some (country_value x) ∧
  (str_replace nl EmptyString x ∈ usa_aliases ∨
   str_replace nl EmptyString x ∈ (λ k, k +:+ cr) <$> ("USA" :: usa_aliases) →
   country_value x = "USA") ∧
  (str_replace nl EmptyString x ∉ usa_aliases →
   str_replace nl EmptyString x ∉ (λ k, k +:+ cr) <$> ("USA" :: usa_aliases) →
   country_value x = str_replace nl EmptyString x).
Proof.
  unfold country_value.
  destruct (country_cell_cases x) as [[-> Hy]|(-> & H1 & H2)]; simpl.
  - split; [done|]. split; [done|]. intros ? ?. by destruct Hy.
  - split; [done|]. split; [|done]. by intros [?|?].
Qed.

Lemma country_value_spec_witness :
  country_value ("us" +:+ cr +:+ nl) = "USA" ∧ country_value ("Canada" +:+ nl) = "Canada".
Proof.
  split.
  - apply (proj1 (proj2 (country_value_spec ("us" +:+ cr +:+ nl)))).
    right. vm_compute. do 2 right. left.
  - apply (proj2 (proj2 (country_value_spec ("Canada" +:+ nl)))).
    + vm_compute. intros H. by repeat (apply elem_of_cons in H as [H|H]; [discriminate H|]); apply elem_of_nil in H.
    + vm_compute. intros H. by repeat (apply elem_of_cons in H as [H|H]; [discriminate H|]); apply elem_of_nil in H.
Defined.

(** C8, as the specification words it, fails.  [USA] followed by [\r] is none
    of the eight aliases, even with the [\r] trimmed, and yet is rewritten;
    and a value that matches nothing keeps its [\r], so the output is not
    the trimmed value either. *)
Lemma country_value_usa_cr :
  spec_usa_alias ("USA" +:+ cr) = false ∧
  country_value ("USA" +:+ cr) = "USA" ∧
  "USA" ≠ "USA" +:+ cr ∧
  spec_usa_alias ("Canada" +:+ cr) = false ∧
  country_value ("Canada" +:+ cr) = "Canada" +:+ cr ∧
  "Canada" +:+ cr ≠ spec_trim_cr ("Canada" +:+ cr).
Proof. repeat split; try reflexivity; vm_compute; discriminate. Qed.

(** ** Idempotence *)

Lemma age_cell_idempotent (c : cell) :
  replace_value EmptyString "unknown" (replace_value EmptyString "unknown" c)
  = replace_value EmptyString "unknown" c.
Proof. unfold replace_value. repeat case_decide; congruence. Qed.

(** C2 (as amended).  Applying the Country normalizer or the Age normalizer a
    second time changes nothing, for every column.  Applying the Income
    normalizer a second time leaves every value as it is, except the sentinel
    [unknown], which becomes [unknown.00]. *)
Theorem normalizers_twice (column : list cell) :
  country_column (country_column column) = country_column column ∧
  age_column (age_column column) = age_column column ∧
  (∀ column', income_column column = Ok column' →
     income_column column' =
       Ok (replace_value "unknown" "unknown.00" <$> column')).
Proof.
  split; [|split].
  - unfold country_column. rewrite <- list_fmap_compose.
    apply list_fmap_ext. intros _ c _. apply country_cell_idempotent.
  - unfold age_column. rewrite <- list_fmap_compose.
    apply list_fmap_ext. intros _ c _. apply age_cell_idempotent.
  - intros column' H.
    destruct (income_column_inv _ _ H) as [xs ->].
    rewrite income_column_strings in H. injection H as <-.
    rewrite income_column_strings. f_equal.
    rewrite <- !list_fmap_compose. apply list_fmap_ext. intros _ x _. simpl.
    rewrite income_value_twice. unfold replace_value.
    repeat case_decide; congruence.
Qed.

Lemma normalizers_twice_witness :
  income_column [Some "1200.00"; Some "3.5"] =
    Ok (replace_value "unknown" "unknown.00" <$> [Some "1200.00"; Some "3.5"]).
Proof.
  apply (proj2 (proj2 (normalizers_twice [Some "$1200"; Some "3.5"]))).
  reflexivity.
Defined.

(** C2, as the specification words it, fails for Income: an empty value is
    cleaned to [unknown], and cleaning the column again turns it into
    [unknown.00]. *)
Lemma income_column_not_idempotent :
  income_column [Some EmptyString] = Ok [Some "unknown"] ∧
  income_column [Some "unknown"] = Ok [Some "unknown.00"].
Proof. split; reflexivity. Qed.

(** ** Email: the doubled [@] and the sentinel *)

Lemma collapse_at_at (s : string) :
  str_replace "@@" "@" (String "@" (String "@" s)) =
    String "@" (str_replace "@@" "@" s).
Proof. rewrite str_replace_cons, !prefix_cons, prefix_nil. done. Qed.

Lemma collapse_other (a : ascii) (s : string) :
  a ≠ "@"%char →
  str_replace "@@" "@" (String a s) = String a (str_replace "@@" "@" s).
Proof.
  intros Ha. rewrite str_replace_cons, prefix_cons.
  by destruct (Ascii.eqb_spec "@" a).
Qed.

Lemma collapse_at_other (b : ascii) (s : string) :
  b ≠ "@"%char →
  str_replace "@@" "@" (String "@" (String b s)) =
    String "@" (str_replace "@@" "@" (String b s)).
Proof.
  intros Hb. rewrite str_replace_cons, !prefix_cons.
  destruct (Ascii.eqb_spec "@" b); [congruence|]. by rewrite andb_false_r.
Qed.

Lemma endswith_cons (c a b : ascii) (s : string) :
  endswith c (String a (String b s)) = endswith c (String b s).
Proof. done. Qed.

Lemma collapse_app_aux (n : nat) (u v : string) :
  String.length u ≤ n →
  endswith "@" u = false →
  str_replace "@@" "@" (u +:+ "@@" +:+ v) =
    str_replace "@@" "@" u +:+ "@" +:+ str_replace "@@" "@" v.
Proof.
  revert u. induction n as [|n IH]; intros u Hlen Hend.
  - destruct u; [|simpl in Hlen; lia]. apply collapse_at_at.
  - destruct u as [|a u]; [apply collapse_at_at|].
    destruct (decide (a = "@"%char)) as [->|Ha].
    + destruct u as [|b u]; [done|].
      rewrite endswith_cons in Hend.
      destruct (decide (b = "@"%char)) as [->|Hb].
      * destruct u as [|c u]; [done|].
        rewrite endswith_cons in Hend.
        change ((String "@" (String "@" (String c u))) +:+ "@@" +:+ v)
          with (String "@" (String "@" (String c u +:+ "@@" +:+ v))).
        rewrite !collapse_at_at. rewrite IH; [done| |done].
        simpl in *. lia.
      * change ((String "@" (String b u)) +:+ "@@" +:+ v)
          with (String "@" (String b (u +:+ "@@" +:+ v))).
        rewrite !collapse_at_other by done.
        change (String b (u +:+ "@@" +:+ v)) with (String b u +:+ "@@" +:+ v).
        rewrite IH; [done| |done]. simpl in *. lia.
    + change ((String a u) +:+ "@@" +:+ v) with (String a (u +:+ "@@" +:+ v)).
      rewrite !collapse_other by done.
      rewrite IH; [done| |].
      * simpl in *. lia.
      * destruct u; [done|]. by rewrite endswith_cons in Hend.
Qed.

Lemma endswith_absent (c : ascii) (s : string) :
  has_char c s = false → endswith c s = false.
Proof.
  induction s as [|a s IH]; [done|]. simpl.
  intros [Ha Hs]%orb_false_iff. destruct s; [done|]. by apply IH.
Qed.

Lemma collapse_absent (s : string) :
  has_char "@" s = false → str_replace "@@" "@" s = s.
Proof.
  induction s as [|a s IH]; [done|]. simpl.
  intros [Ha Hs]%orb_false_iff.
  rewrite collapse_other; [by rewrite IH|].
  intros ->. done.
Qed.

Lemma collapse_nonempty (a : ascii) (s : string) :
  str_replace "@@" "@" (String a s) ≠ EmptyString.
Proof.
  rewrite str_replace_cons. by destruct (String.prefix "@@" (String a s)).
Qed.

Lemma endswith_cons_nonempty (c a : ascii) (s : string) :
  s ≠ EmptyString → endswith c (String a s) = endswith c s.
Proof. by destruct s. Qed.

Lemma collapse_endswith_aux (n : nat) (u : string) :
  String.length u ≤ n →
  endswith "@" u = false → endswith "@" (str_replace "@@" "@" u) = false.
Proof.
  revert u. induction n as [|n IH]; intros u Hlen Hend.
  - by destruct u; [|simpl in Hlen; lia].
  - destruct u as [|a u]; [done|].
    destruct (decide (a = "@"%char)) as [->|Ha].
    + destruct u as [|b u]; [done|].
      rewrite endswith_cons in Hend.
      destruct (decide (b = "@"%char)) as [->|Hb].
      * destruct u as [|c u]; [done|].
        rewrite endswith_cons in Hend. rewrite collapse_at_at.
        rewrite endswith_cons_nonempty by apply collapse_nonempty.
        apply IH; [simpl in *; lia|done].
      * rewrite collapse_at_other by done.
        rewrite endswith_cons_nonempty by apply collapse_nonempty.
        apply IH; [simpl in *; lia|done].
    + rewrite collapse_other by done.
      destruct u as [|b u]; [by destruct (Ascii.eqb_spec a "@")|].
      rewrite endswith_cons in Hend.
      rewrite endswith_cons_nonempty by apply collapse_nonempty.
      apply IH; [simpl in *; lia|done].
Qed.

Lemma collapse_startswith (v : string) :
  startswith "@" v = false → startswith "@" (str_replace "@@" "@" v) = false.
Proof.
  destruct v as [|a v]; [done|]. simpl. intros Ha.
  rewrite collapse_other; [done|]. intros ->. done.
Qed.

(** ** The frame: a step assigns to its own column only *)

Lemma keeps_others_refl (name : string) (data : frame) :
  keeps_others name data data.
Proof. by split. Qed.

Lemma keeps_others_trans (name : string) (d1 d2 d3 : frame) :
  keeps_others name d1 d2 → keeps_others name d2 d3 → keeps_others name d1 d3.
Proof.
  intros [L1 K1] [L2 K2]. split; [congruence|].
  intros i n c Hi Hn. apply K2; [|done]. by apply K1.
Qed.

Lemma get_column_label (dup : exn) (name : string) (data : frame)
    (column : list cell) :
  get_column dup name data = Ok column → name ∈ data.*1.
Proof.
  unfold get_column.
  destruct (filter (λ c : string * list cell, c.1 = name) data)
    as [|c rest] eqn:Hf; [done|].
  intros _.
  assert (c ∈ filter (λ c : string * list cell, c.1 = name) data) as Hc
    by (rewrite Hf; left).
  apply list_elem_of_filter in Hc as [<- Hc].
  apply list_elem_of_fmap. by exists c.
Qed.

Lemma set_column_keeps (name : string) (column : list cell) (data : frame) :
  name ∈ data.*1 → keeps_others name data (set_column name column data).
Proof.
  intros Hin. unfold set_column. rewrite bool_decide_eq_true_2 by done.
  split.
  - rewrite <- list_fmap_compose. apply list_fmap_ext.
    intros _ [n c] _. simpl. by case_decide.
  - intros i n c Hi Hn. rewrite list_lookup_fmap, Hi. simpl.
    by case_decide.
Qed.

Lemma update_column_keeps (dup : exn) (name : string)
    (f : list cell → result (list cell)) (data data' : frame) :
  update_column dup name f data = Ok data' → keeps_others name data data'.
Proof.
  unfold update_column.
  destruct (get_column dup name data) as [column|] eqn:Hg; [|done]. simpl.
  destruct (f column) as [column'|]; [|done]. simpl.
  intros [= <-]. eapply set_column_keeps, get_column_label, Hg.
Qed.

Lemma rename_lookup (mapping : list (string * string)) (data : frame) i n c :
  data !! i = Some (n, c) →
  rename mapping data !! i = Some (renamed mapping n, c).
Proof. intros Hi. unfold rename. by rewrite list_lookup_fmap, Hi. Qed.

Lemma rename_labels (mapping : list (string * string)) (data : frame) :
  (rename mapping data).*1 = renamed mapping <$> data.*1.
Proof.
  unfold rename. rewrite <- !list_fmap_compose. apply list_fmap_ext.
  by intros _ [n c] _.
Qed.

Lemma renamed_country_other (n : string) :
  n ≠ "Country" +:+ nl → n ≠ "Country" +:+ cr +:+ nl →
  renamed country_rename n = n.
Proof.
  intros H1 H2. unfold renamed, country_rename. simpl.
  repeat case_decide; simpl in *; congruence.
Qed.

Ltac step_keeps :=
  repeat match goal with
    | H : update_column _ _ _ _ = Ok _ |- _ =>
        apply update_column_keeps in H
    | H : (update_column ?d ?n ?f ?x ≫= _) = Ok _ |- _ =>
        let E := fresh "E" in
        destruct (update_column d n f x) eqn:E; [simpl in H|done]
    end;
  eauto using keeps_others_trans, keeps_others_refl.

(** C10.  Each of the six column steps, when it succeeds, leaves the labels of
    the frame as they were, except that the Country step gives the label
    [Country] to the columns labelled [Country\n] or [Country\r\n] and to no
    other; and every column whose label (after the renaming) is not the one
    of the step holds after the step, in every row, the value it held
    before. *)
Theorem normalize_frame (parse_strftime : cell → result string)
    (step : normalizer) (data data' : frame) :
  normalize parse_strftime step data = Ok data' →
  data'.*1 = label_after step <$> data.*1 ∧
  (∀ i n c, data !! i = Some (n, c) →
     label_after step n ≠ normalizer_column step →
     data' !! i = Some (label_after step n, c)) ∧
  (∀ n, n ≠ "Country" +:+ nl → n ≠ "Country" +:+ cr +:+ nl →
     label_after step n = n) ∧
  label_after Country ("Country" +:+ nl) = "Country" ∧
  label_after Country ("Country" +:+ cr +:+ nl) = "Country".
Proof.
  intros Hrun.
  enough (data'.*1 = label_after step <$> data.*1 ∧
          (∀ i n c, data !! i = Some (n, c) →
             label_after step n ≠ normalizer_column step →
             data' !! i = Some (label_after step n, c)) ∧
          (∀ n, n ≠ "Country" +:+ nl → n ≠ "Country" +:+ cr +:+ nl →
             label_after step n = n)) as (? & ? & ?) by done.
  assert (∀ n, n ≠ "Country" +:+ nl → n ≠ "Country" +:+ cr +:+ nl →
               label_after step n = n) as Hlabel.
  { intros n ? ?. destruct step; try done. by apply renamed_country_other. }
  assert (step = Country ∨ step ≠ Country) as [->|Hstep]
    by (destruct step; auto).
  - simpl in *. unfold clean_country in Hrun.
    assert (keeps_others "Country" (rename country_rename data) data') as [L K]
      by step_keeps.
    split; [by rewrite L, rename_labels|]. split; [|done].
    intros i n c Hi Hn. apply K; [|done]. by apply rename_lookup.
  - assert (keeps_others (normalizer_column step) data data') as [L K].
    { destruct step; simpl in Hrun; try done;
        unfold clean_income, clean_name, clean_email, clean_date, clean_age in Hrun;
        step_keeps. }
    assert (label_after step = id) as -> by (by destruct step).
    split; [by rewrite list_fmap_id|]. split; [|done].
    intros i n c Hi Hn. by apply K.
Qed.

Lemma normalize_frame_witness :
  ∃ data',
    normalize (λ _, Raise ValueError) Country
      [("Name", [Some "ann lee"]); ("Country" +:+ nl, [Some ("us" +:+ cr +:+ nl)])]
      = Ok data' ∧
    data' !! 0 = Some ("Name", [Some "ann lee"]) ∧
    data'.*1 = ["Name"; "Country"].
Proof.
  eexists. split; [reflexivity|].
  pose proof (normalize_frame (λ _, Raise ValueError) Country
                [("Name", [Some "ann lee"]);
                 ("Country" +:+ nl, [Some ("us" +:+ cr +:+ nl)])]
                _ eq_refl) as (L & K & _ & _).
  split; [|exact L].
  apply (K 0 "Name" [Some "ann lee"]); [reflexivity|].
  vm_compute. discriminate.
Defined.

(** *** The steps on a frame and on a column *)

Lemma filter_label_fmap (name : string) (g : string * list cell → string * list cell)
    (data : frame) :
  (∀ c, (g c).1 = name ↔ c.1 = name) →
  filter (λ c : string * list cell, c.1 = name) (g <$> data)
  = g <$> filter (λ c : string * list cell, c.1 = name) data.
Proof.
  intros Hg. induction data as [|c data IH]; [done|].
  rewrite fmap_cons, !filter_cons.
  destruct (decide ((g c).1 = name)) as [H|H];
    destruct (decide (c.1 = name)) as [H'|H']; rewrite ?fmap_cons, IH; try done.
  - exfalso. by apply H', Hg.
  - exfalso. by apply H, Hg.
Qed.

Lemma get_set_column (dup dup' : exn) (name : string) (column column' : list cell)
    (data : frame) :
  get_column dup name data = Ok column →
  get_column dup' name (set_column name column' data) = Ok column'.
Proof.
  intros Hg. pose proof (get_column_label _ _ _ _ Hg) as Hin.
  unfold set_column. rewrite bool_decide_eq_true_2 by done.
  unfold get_column in *. rewrite filter_label_fmap.
  - destruct (filter _ data) as [|c [|]] eqn:Hf; try done.
    assert (c ∈ filter (λ c : string * list cell, c.1 = name) data) as Hc
      by (rewrite Hf; left).
    apply list_elem_of_filter in Hc as [Hc _]. simpl.
    by rewrite decide_True.
  - intros c. case_decide; simpl; naive_solver.
Qed.

Lemma set_column_present (name : string) (column : list cell) (data : frame) :
  name ∈ data.*1 →
  set_column name column data =
    (λ c : string * list cell, if decide (c.1 = name) then (name, column) else c)
      <$> data.
Proof. intros Hin. unfold set_column. by rewrite bool_decide_eq_true_2. Qed.

Lemma set_set_column (name : string) (c1 c2 : list cell) (data : frame) :
  name ∈ data.*1 →
  set_column name c2 (set_column name c1 data) = set_column name c2 data.
Proof.
  intros Hin.
  assert (name ∈ (set_column name c1 data).*1) as Hin'.
  { by rewrite (proj1 (set_column_keeps name c1 data Hin)). }
  rewrite (set_column_present name c2 _ Hin').
  rewrite !(set_column_present name _ data Hin).
  rewrite <- list_fmap_compose. apply list_fmap_ext. intros _ c _. simpl.
  repeat (case_decide; simpl in *); congruence.
Qed.

Lemma update_column_found (d d' : exn) (name : string)
    (f : list cell → result (list cell)) (data : frame) (column : list cell) :
  get_column d' name data = Ok column →
  update_column d name f data =
    column' ← f column; Ok (set_column name column' data).
Proof.
  intros Hg.
  assert (get_column d name data = Ok column) as Hd.
  { unfold get_column in *. by destruct (filter _ data) as [|c [|]]. }
  unfold update_column. by rewrite Hd.
Qed.

Lemma update_set_column (d d' : exn) (name : string)
    (f : list cell → result (list cell)) (data : frame) (c0 c1 : list cell) :
  get_column d' name data = Ok c0 →
  update_column d name f (set_column name c1 data) =
    column' ← f c1; Ok (set_column name column' data).
Proof.
  intros Hg.
  rewrite (update_column_found d d name f _ c1)
    by (by eapply get_set_column).
  destruct (f c1) as [c2|]; [|done]. simpl.
  rewrite set_set_column; [done|]. by eapply get_column_label.
Qed.

(** The column functions are what the steps do to their column. *)
Lemma clean_steps_on_columns (data : frame) (column : list cell) :
  (get_column AttributeError "Income" data = Ok column →
   clean_income data =
     column' ← income_column column; Ok (set_column "Income" column' data)) ∧
  (get_column AttributeError "Country" (rename country_rename data) = Ok column →
   clean_country data =
     Ok (set_column "Country" (country_column column)
           (rename country_rename data))) ∧
  (get_column AttributeError "Email" data = Ok column →
   clean_email data =
     column' ← email_column column; Ok (set_column "Email" column' data)) ∧
  (get_column OutOfModel "Age" data = Ok column →
   clean_age data = Ok (set_column "Age" (age_column column) data)).
Proof.
  split; [|split; [|split]]; intros Hg.
  - unfold clean_income, income_column.
    rewrite (update_column_found _ _ _ _ _ _ Hg). simpl.
    rewrite (update_set_column _ _ _ _ _ _ _ Hg).
    destruct (mapM income_apply_cell _) as [c2|]; [|done]. simpl.
    by rewrite (update_set_column _ _ _ _ _ _ _ Hg).
  - unfold clean_country.
    rewrite (update_column_found _ _ _ _ _ _ Hg). simpl.
    rewrite (update_set_column _ _ _ _ _ _ _ Hg). simpl.
    rewrite (update_set_column _ _ _ _ _ _ _ Hg). simpl.
    do 2 f_equal. unfold country_column, str_method.
    rewrite <- !list_fmap_compose. done.
  - unfold clean_email, email_column.
    rewrite (update_column_found _ _ _ _ _ _ Hg). simpl.
    rewrite (update_set_column _ _ _ _ _ _ _ Hg).
    destruct (assume_subdomains _) as [c2|]; [|done]. simpl.
    by rewrite (update_set_column _ _ _ _ _ _ _ Hg).
  - unfold clean_age. by rewrite (update_column_found _ _ _ _ _ _ Hg).
Qed.

(** ** Email: the doubled [@] and the sentinel, on the frame *)

Lemma collapse_app_any (n : nat) (u w : string) :
  String.length u ≤ n →
  endswith "@" u = false →
  str_replace "@@" "@" (u +:+ w) =
    str_replace "@@" "@" u +:+ str_replace "@@" "@" w.
Proof.
  revert u. induction n as [|n IH]; intros u Hlen Hend.
  - by destruct u; [|simpl in Hlen; lia].
  - destruct u as [|a u]; [done|].
    destruct (decide (a = "@"%char)) as [->|Ha].
    + destruct u as [|b u]; [done|].
      rewrite endswith_cons in Hend.
      destruct (decide (b = "@"%char)) as [->|Hb].
      * destruct u as [|c u]; [done|].
        rewrite endswith_cons in Hend.
        change ((String "@" (String "@" (String c u))) +:+ w)
          with (String "@" (String "@" (String c u +:+ w))).
        rewrite !collapse_at_at. rewrite IH; [done| |done].
        simpl in *. lia.
      * change ((String "@" (String b u)) +:+ w)
          with (String "@" (String b (u +:+ w))).
        rewrite !collapse_at_other by done.
        change (String b (u +:+ w)) with (String b u +:+ w).
        rewrite IH; [done| |done]. simpl in *. lia.
    + change ((String a u) +:+ w) with (String a (u +:+ w)).
      rewrite !collapse_other by done.
      rewrite IH; [done| |].
      * simpl in *. lia.
      * destruct u; [done|]. by rewrite endswith_cons in Hend.
Qed.

Lemma collapse_run_pair (k : nat) (v : string) :
  startswith "@" v = false →
  str_replace "@@" "@" (ats k +:+ v)
    = ats (Nat.div2 (S k)) +:+ str_replace "@@" "@" v ∧
  str_replace "@@" "@" (ats (S k) +:+ v)
    = ats (Nat.div2 (S (S k))) +:+ str_replace "@@" "@" v.
Proof.
  intros Hv. induction k as [|k [IH1 IH2]].
  - split; [done|].
    change (ats 1 +:+ v) with (String "@" v).
    destruct v as [|b v]; [done|].
    simpl in Hv. rewrite collapse_at_other; [done|].
    intros ->. done.
  - split; [done|].
    change (ats (S (S k)) +:+ v) with (String "@" (String "@" (ats k +:+ v))).
    rewrite collapse_at_at, IH1. done.
Qed.

(** C9 (as amended).  The Email step succeeds only on a frame with one Email
    column, and the column it leaves is the one the subdomain inference makes
    of the column with [@@] replaced, with the values that are exactly [.com]
    replaced by [unknown] and every other value, also one that ends in
    [.com], as it is.  The replacement of [@@] takes each doubled [@@] from
    the left, without overlap: a run of k signs [@], with no [@] next to it,
    becomes a run of k/2 rounded up, the text before and after being
    rewritten on its own.  So a run of two becomes a single [@], an address
    [local@@domain] becomes [local@domain], and a run of three or more
    leaves a doubled [@@]. *)
Theorem clean_email_collapse_and_sentinel (data data' : frame) :
  clean_email data = Ok data' →
  (∃ column inferred,
     get_column AttributeError "Email" data = Ok column ∧
     assume_subdomains (str_method (str_replace "@@" "@") column) = Ok inferred ∧
     get_column AttributeError "Email" data' =
       Ok ((λ c : cell, if decide (c = Some ".com") then Some "unknown" else c)
             <$> inferred)) ∧
  (∀ u k v, endswith "@" u = false → startswith "@" v = false →
     str_replace "@@" "@" (u +:+ ats k +:+ v) =
       str_replace "@@" "@" u +:+ ats (Nat.div2 (S k)) +:+ str_replace "@@" "@" v ∧
     endswith "@" (str_replace "@@" "@" u) = false ∧
     startswith "@" (str_replace "@@" "@" v) = false) ∧
  (∀ l d, has_char "@" l = false → has_char "@" d = false →
     str_replace "@@" "@" (l +:+ "@@" +:+ d) = l +:+ "@" +:+ d).
Proof.
  intros Hrun. split.
  - destruct (get_column AttributeError "Email" data) as [column|e] eqn:Hg.
    2:{ unfold clean_email, update_column in Hrun. by rewrite Hg in Hrun. }
    rewrite (proj1 (proj2 (proj2 (clean_steps_on_columns data column))) Hg)
      in Hrun.
    unfold email_column in Hrun.
    destruct (assume_subdomains _) as [inferred|] eqn:Hi; [|done].
    simpl in Hrun. injection Hrun as <-.
    exists column, inferred. split; [done|]. split; [done|].
    by apply (get_set_column AttributeError AttributeError _ column).
  - split.
    + intros u k v Hu Hv. split; [|split].
      * rewrite (collapse_app_any (String.length u)) by done.
        by rewrite (proj1 (collapse_run_pair k v Hv)).
      * by apply (collapse_endswith_aux (String.length u)).
      * by apply collapse_startswith.
    + intros l d Hl Hd.
      rewrite (collapse_app_aux (String.length l)); [|done|by apply endswith_absent].
      by rewrite !collapse_absent.
Qed.

Lemma clean_email_collapse_and_sentinel_witness :
  (∃ column inferred,
     get_column AttributeError "Email"
       [("Name", [Some "john doe"; Some "x"; Some "ann lee"]);
        ("Email", [Some "j@@gmail.com"; Some EmptyString; Some "x@y.com"])]
       = Ok column ∧
     assume_subdomains (str_method (str_replace "@@" "@") column) = Ok inferred ∧
     get_column AttributeError "Email"
       [("Name", [Some "john doe"; Some "x"; Some "ann lee"]);
        ("Email", [Some "j@gmail.com"; Some "unknown"; Some "x@y.com"])] =
       Ok ((λ c : cell, if decide (c = Some ".com") then Some "unknown" else c)
             <$> inferred)) ∧
  (∀ u k v, endswith "@" u = false → startswith "@" v = false →
     str_replace "@@" "@" (u +:+ ats k +:+ v) =
       str_replace "@@" "@" u +:+ ats (Nat.div2 (S k)) +:+ str_replace "@@" "@" v ∧
     endswith "@" (str_replace "@@" "@" u) = false ∧
     startswith "@" (str_replace "@@" "@" v) = false) ∧
  (∀ l d, has_char "@" l = false → has_char "@" d = false →
     str_replace "@@" "@" (l +:+ "@@" +:+ d) = l +:+ "@" +:+ d).
Proof.
  apply (clean_email_collapse_and_sentinel
           [("Name", [Some "john doe"; Some "x"; Some "ann lee"]);
            ("Email", [Some "j@@gmail.com"; Some EmptyString; Some "x@y.com"])]).
  reflexivity.
Defined.

(** C9, as the specification words it, fails: not every value with a doubled
    [@@] comes out with a single [@].  Of three signs [@] the first two are
    replaced and the third stays, so the value still holds [@@] after the
    Email step. *)
Lemma clean_email_keeps_doubled_at :
  clean_email [("Email", [Some "a@@@b.com"])]
    = Ok [("Email", [Some "a@@b.com"])] ∧
  substring_of "@@" "a@@@b.com" = true ∧
  substring_of "@@" "a@@b.com" = true.
Proof. repeat split; reflexivity. Qed.

(** ** Email: the inference of a missing label *)

(** *** The most frequent value *)





(** *** Pieces of a string *)

Lemma append_nil_r (a : string) : a +:+ EmptyString = a.
Proof.
  induction a as [|x a IH]; [done|].
  change (String x (a +:+ EmptyString) = String x a). by rewrite IH.
Qed.

Lemma split_nonempty (c : ascii) (s : string) : split c s ≠ [].
Proof.
  induction s as [|a s IH]; [done|]. simpl.
  destruct (Ascii.eqb a c); [done|]. by destruct (split c s).
Qed.








(** *** One address without a second label *)

Lemma omap_none {A B} (f : A → option B) (l : list A) :
  (∀ j a, l !! j = Some a → f a = None) → omap f l = [].
Proof.
  induction l as [|a l IH]; [done|]. intros H. simpl.
  rewrite (H 0 a) by done. apply IH. intros j a' Hj. by apply (H (S j)).
Qed.







(** The loop of line 72 runs once for every address without a second label,
    and each turn fills every such address that holds the label of the turn:
    two addresses with the same label get the inferred label twice. *)
Remark assume_subdomains_fills_twice :
  assume_subdomains [Some "a@gmail"; Some "b@gmail.com"; Some "c@gmail"]
  = Ok [Some "a@gmail.com.com"; Some "b@gmail.com"; Some "c@gmail.com.com"].
Proof. reflexivity. Qed.

(** ** Dates and the whole routine *)

(** The loop over the dates goes on as long as the library raises nothing but
    [ValueError] and [TypeError]; any other exception ends the routine. *)
Lemma standardize_dates_caught (parse_strftime : cell → result string)
    (date_series : list cell) :
  Forall (λ date, parse_strftime date ≠ Raise OverflowError ∧
                  parse_strftime date ≠ Raise IndexError ∧
                  parse_strftime date ≠ Raise KeyError ∧
                  parse_strftime date ≠ Raise AttributeError ∧
                  parse_strftime date ≠ Raise OutOfModel) date_series →
  standardize_dates parse_strftime date_series =
    Ok ((λ date, match parse_strftime date with
                 | Ok formatted => Some formatted
                 | Raise _ => Some "unknown"
                 end) <$> date_series).
Proof.
  intros H. apply mapM_Ok_fmap. eapply Forall_impl; [exact H|].
  intros date (? & ? & ? & ? & ?). unfold standardize_date.
  by destruct (parse_strftime date) as [|[]].
Qed.

Remark standardize_dates_uncaught :
  standardize_dates (λ _, Raise OverflowError) [Some "1/2/2000"]
  = Raise OverflowError.
Proof. reflexivity. Qed.

(** A run of the whole routine on a file of two records, the first with its
    income split over two fields; the library call for the dates is taken to
    fail on every value. *)
Example clean_data_run :
  clean_data (λ _, Raise ValueError)
    ["Name,Email,Date of Birth,Age,Income,Country" +:+ nl;
     "john doe,j@@gmail,1/2/2000,,$1,200,us" +:+ cr +:+ nl;
     "ann lee,a@gmail.com,3/4/1999,33,$5,Canada" +:+ nl]
  = Ok [("Name", [Some "John Doe"; Some "Ann Lee"]);
        ("Email", [Some "j@gmail.com"; Some "a@gmail.com"]);
        ("Date of Birth", [Some "unknown"; Some "unknown"]);
        ("Age", [Some "unknown"; Some "33"]);
        ("Income", [Some "1200.00"; Some "5.00"]);
        ("Country", [Some "USA"; Some "Canada"])].
Proof. reflexivity. Qed.

(** * Further properties of the routine *)

(** ** The row parser *)

Lemma join_cons_cons (sep x y : string) (l : list string) :
  join sep (x :: y :: l) = x +:+ sep +:+ join sep (y :: l).
Proof. done. Qed.

Lemma split_join (c : ascii) (s : string) :
  join (String c EmptyString) (split c s) = s.
Proof.
  induction s as [|a s IH]; [done|]. simpl.
  destruct (split c s) as [|h t] eqn:E; [by apply split_nonempty in E|].
  destruct (Ascii.eqb_spec a c) as [->|Hne].
  - rewrite join_cons_cons, IH. done.
  - destruct t as [|h' t].
    + simpl in *. by rewrite IH.
    + rewrite join_cons_cons. rewrite join_cons_cons in IH.
      change (String a h +:+ String c EmptyString +:+ join (String c EmptyString) (h' :: t))
        with (String a (h +:+ String c EmptyString +:+ join (String c EmptyString) (h' :: t))).
      by rewrite IH.
Qed.

Lemma split_fields (c : ascii) (s : string) :
  Forall (λ f, has_char c f = false) (split c s) ∧
  length (split c s) = S (count_char c s).
Proof.
  induction s as [|a s [IH1 IH2]]; [by repeat constructor|]. simpl.
  destruct (Ascii.eqb a c) eqn:E.
  - split; [by constructor|]. simpl. by rewrite IH2.
  - destruct (split c s) as [|h t]; [done|].
    apply Forall_cons in IH1 as [Hh Ht]. split; [|done].
    constructor; [|done]. simpl. by rewrite E.
Qed.

(** X1.  The row parser loses nothing and splits at every comma: joining the
    fields of each row with commas gives the line back, no field holds a
    comma, and a line with n commas gives n + 1 fields (so one field at
    least, also for an empty line). *)
Theorem parse_rows_round_trip (raw_text : list string) :
  join "," <$> parse_rows raw_text = raw_text ∧
  Forall (Forall (λ f, has_char "," f = false)) (parse_rows raw_text) ∧
  length <$> parse_rows raw_text = (λ line, S (count_char "," line)) <$> raw_text.
Proof.
  unfold parse_rows. rewrite <- !list_fmap_compose.
  split; [|split].
  - rewrite <- (list_fmap_id raw_text) at 2. apply list_fmap_ext.
    intros _ line _. apply split_join.
  - apply Forall_fmap, Forall_true. intros line. apply split_fields.
  - apply list_fmap_ext. intros _ line _. apply split_fields.
Qed.

(** ** The field repair pass on a whole table *)

Lemma mapM_Ok_Forall2 {A B} (f : A → result B) (l : list A) (k : list B) :
  mapM f l = Ok k ↔ Forall2 (λ x y, f x = Ok y) l k.
Proof.
  revert k. induction l as [|x l IH]; intros k.
  - split; [intros [= <-]; constructor|by inversion 1].
  - rewrite mapM_cons. split.
    + destruct (f x) as [y|] eqn:Hx; [|done]. simpl.
      destruct (mapM f l) as [k'|] eqn:Hl; [|done]. simpl.
      intros [= <-]. constructor; [done|]. by apply IH.
    + inversion 1 as [|? y ? k' Hx Hl]; subst.
      apply IH in Hl. by rewrite Hx, Hl.
Qed.

Lemma mapM_Raise_Exists {A B} (f : A → result B) (l : list A) (e : exn) :
  mapM f l = Raise e → Exists (λ x, f x = Raise e) l.
Proof.
  induction l as [|x l IH]; [done|]. rewrite mapM_cons.
  destruct (f x) as [y|e'] eqn:Hx; simpl.
  - destruct (mapM f l) as [k'|e'] eqn:Hl; [done|]. simpl.
    intros [= ->]. right. by apply IH.
  - intros [= ->]. by left.
Qed.

Lemma extract_income_row_cases (row : list string) :
  (no_split_readable row = true ∧ income_split row = false ∧
   extract_income_row row = Ok row) ∨
  (7 ≤ length row ∧ income_split row = true ∧
   ∃ f4 f5, row !! 4 = Some f4 ∧ row !! 5 = Some f5 ∧
     extract_income_row row = Ok (take 4 row ++ (f4 +:+ f5) :: drop 6 row)) ∨
  (length row < 7 ∧ no_split_readable row = false ∧
   extract_income_row row = Raise IndexError).
Proof.
  destruct (no_split_readable row) eqn:Hr.
  - left. split; [done|]. split; [|by apply extract_income_row_keep].
    unfold no_split_readable, income_split in *.
    destruct (row !! 4) as [f4|]; [|done].
    destruct (income_head f4); [|by destruct (row !! 5)].
    destruct (row !! 5) as [f5|]; [|done]. by destruct (income_tail f5).
  - right. destruct (decide (7 ≤ length row)) as [Hlen|Hlen].
    + left. split; [done|].
      do 7 (destruct row as [|? row]; [simpl in Hlen; lia|]).
      unfold no_split_readable, income_split in *. simpl in *.
      destruct (income_head _) eqn:Hh; [|done].
      destruct (income_tail _) eqn:Ht; [|done].
      split; [done|]. eexists _, _. split; [done|]. split; [done|].
      by erewrite extract_income_row_merge.
    + right. split; [lia|]. split; [done|].
      apply short_row_index_error; [lia|done].
Qed.

(** X2.  The repair pass either succeeds or ends with [IndexError], and never
    with another exception.  It succeeds exactly when every row of the table,
    the header included, has at least seven fields or has the fields the test
    of line 58 reads and no split; it fails as soon as one row has fewer than
    seven fields and either lacks a field the test reads or has the numeric
    pattern. *)
Theorem extract_income_outcome (data : list (list string)) :
  match extract_income data with
  | Ok data' =>
      Forall (λ row, 7 ≤ length row ∨ no_split_readable row = true) data
  | Raise e =>
      e = IndexError ∧
      Exists (λ row, length row < 7 ∧ no_split_readable row = false) data
  end.
Proof.
  unfold extract_income.
  destruct (mapM extract_income_row data) as [data'|e] eqn:Hrun.
  - apply mapM_Ok_Forall2 in Hrun.
    induction Hrun as [|row row' data data' Hrow _ IH]; constructor; [|done].
    destruct (extract_income_row_cases row)
      as [(? & _)|[(? & _)|(_ & _ & Hfail)]]; [by right|by left|congruence].
  - apply mapM_Raise_Exists in Hrun.
    assert (Exists (λ row, e = IndexError ∧ length row < 7 ∧
                           no_split_readable row = false) data) as Hex.
    { eapply Exists_impl; [exact Hrun|]. simpl. intros row Hrow.
      destruct (extract_income_row_cases row)
        as [(_ & _ & H)|[(_ & _ & f4 & f5 & _ & _ & H)|(? & ? & H)]];
        rewrite H in Hrow; [done|done|]. by injection Hrow as <-. }
    split.
    + apply Exists_exists in Hex as (row & _ & -> & _). done.
    + eapply Exists_impl; [exact Hex|]. simpl. by intros row (_ & ? & ?).
Qed.

(** X3.  When the repair pass succeeds, the table keeps its number of rows,
    and in every row the first four fields are untouched; a row with the
    numeric pattern comes out one field shorter, fields 4 and 5 joined and
    the later fields moved one place left, and every other row comes out as
    it was. *)
Theorem extract_income_rows (data data' : list (list string)) :
  extract_income data = Ok data' →
  Forall2 (λ row row',
             take 4 row' = take 4 row ∧
             if income_split row
             then length row' + 1 = length row ∧
                  drop 5 row' = drop 6 row ∧
                  ∃ f4 f5, row !! 4 = Some f4 ∧ row !! 5 = Some f5 ∧
                           row' !! 4 = Some (f4 +:+ f5)
             else row' = row) data data'.
Proof.
  intros Hrun. apply mapM_Ok_Forall2 in Hrun.
  eapply Forall2_impl; [exact Hrun|]. simpl. intros row row' Hrow.
  destruct (extract_income_row_cases row)
    as [(_ & Hs & H)|[(Hlen & Hs & f4 & f5 & H4 & H5 & H)|(_ & _ & H)]];
    rewrite H in Hrow; [|clear H|done]; injection Hrow as <-; rewrite Hs.
  - done.
  - assert (length (take 4 row) = 4) as Ht by (rewrite length_take; lia).
    split; [by rewrite take_app_length' by done|].
    split; [|split].
    + rewrite length_app, Ht. simpl. rewrite length_drop. lia.
    + rewrite drop_app_ge by lia. rewrite Ht. done.
    + exists f4, f5. split; [done|]. split; [done|].
      rewrite lookup_app_r by lia. by rewrite Ht.
Qed.

Lemma extract_income_rows_witness :
  Forall2 (λ row row',
             take 4 row' = take 4 row ∧
             if income_split row
             then length row' + 1 = length row ∧
                  drop 5 row' = drop 6 row ∧
                  ∃ f4 f5, row !! 4 = Some f4 ∧ row !! 5 = Some f5 ∧
                           row' !! 4 = Some (f4 +:+ f5)
             else row' = row)
    [["Name"; "Email"; "Date of Birth"; "Age"; "Income"; "Country"];
     ["john doe"; "j@@gmail.com"; "1/2/2000"; "30"; "$1"; "200"; "us"]]
    [["Name"; "Email"; "Date of Birth"; "Age"; "Income"; "Country"];
     ["john doe"; "j@@gmail.com"; "1/2/2000"; "30"; "$1200"; "us"]].
Proof.
  apply (extract_income_rows
           [["Name"; "Email"; "Date of Birth"; "Age"; "Income"; "Country"];
            ["john doe"; "j@@gmail.com"; "1/2/2000"; "30"; "$1"; "200"; "us"]]).
  reflexivity.
Defined.

(** ** Missing columns *)

Lemma get_column_missing (dup : exn) (name : string) (data : frame) :
  name ∉ data.*1 → get_column dup name data = Raise KeyError.
Proof.
  intros Hout. unfold get_column.
  destruct (filter (λ c : string * list cell, c.1 = name) data)
    as [|c rest] eqn:Hf; [done|].
  exfalso. apply Hout.
  assert (c ∈ filter (λ c : string * list cell, c.1 = name) data) as Hc
    by (rewrite Hf; left).
  apply list_elem_of_filter in Hc as [<- Hc].
  apply list_elem_of_fmap. by exists c.
Qed.

Lemma update_column_missing (dup : exn) (name : string)
    (f : list cell → result (list cell)) (data : frame) :
  name ∉ data.*1 → update_column dup name f data = Raise KeyError.
Proof.
  intros Hout. unfold update_column. by rewrite get_column_missing.
Qed.

(** X4.  A step whose column is absent from the frame ends with [KeyError]:
    each step starts by reading its column.  For the
    Country step the column counts as present under the labels [Country],
    [Country\n] and [Country\r\n]. *)
Theorem normalize_missing_column (parse_strftime : cell → result string)
    (step : normalizer) (data : frame) :
  normalizer_column step ∉ label_after step <$> data.*1 →
  normalize parse_strftime step data = Raise KeyError.
Proof.
  intros Hout. destruct step; simpl in *; rewrite ?list_fmap_id in Hout;
    unfold clean_income, clean_country, clean_name, clean_email, clean_date,
      clean_age;
    try (by rewrite update_column_missing).
  rewrite update_column_missing; [done|]. by rewrite rename_labels.
Qed.

Lemma normalize_missing_column_witness :
  normalize (λ _, Raise ValueError) Country
    [("Name", [Some "ann lee"]); ("Income", [Some "$5"])] = Raise KeyError ∧
  normalize (λ _, Raise ValueError) Income
    [("Name", [Some "ann lee"]); ("income", [Some "$5"])] = Raise KeyError.
Proof.
  split.
  - apply (normalize_missing_column _ Country). vm_compute.
    intros H. repeat (apply elem_of_cons in H as [H|H]; [discriminate H|]).
    by apply elem_of_nil in H.
  - apply (normalize_missing_column _ Income). vm_compute.
    intros H. repeat (apply elem_of_cons in H as [H|H]; [discriminate H|]).
    by apply elem_of_nil in H.
Defined.

(** ** Income: outcome on a column *)

Lemma income_column_missing (column : list cell) :
  None ∈ column → income_column column = Raise TypeError.
Proof.
  unfold income_column, str_method.
  induction column as [|c column IH]; [by intros ?%elem_of_nil|].
  intros Hin. rewrite fmap_cons, mapM_cons.
  destruct c as [x|]; [|done]. simpl.
  apply elem_of_cons in Hin as [|Hin]; [done|].
  destruct (mapM income_apply_cell _) as [k|e] eqn:Hm; [|simpl in *].
  - by specialize (IH Hin).
  - specialize (IH Hin). simpl in IH. done.
Qed.

Lemma income_value_shape (x : string) :
  has_char "$" (income_value x) = false ∧
  (income_value x = "unknown" ∨
   (has_char "." (income_value x) = true ∧ income_value x ≠ ".00")).
Proof.
  split.
  - unfold income_value. case_decide; [done|].
    apply income_apply_no_dollar, str_replace_char_removes.
  - unfold income_value. case_decide as E; [by left|]. right.
    split; [apply income_apply_has_dot|done].
Qed.

(** X5.  On a column the Income statements fail only on a missing value, and
    then with [TypeError]; otherwise they keep the number of rows and every
    value comes out without [$] and is either the sentinel [unknown] or a
    text with a decimal point other than [.00]. *)
Theorem income_column_outcome (column : list cell) :
  match income_column column with
  | Ok out =>
      (None ∉ column) ∧ length out = length column ∧
      Forall (λ c, ∃ v, c = Some v ∧ has_char "$" v = false ∧
                        (v = "unknown" ∨
                         (has_char "." v = true ∧ v ≠ ".00"))) out
  | Raise e => e = TypeError ∧ None ∈ column
  end.
Proof.
  destruct (decide (None ∈ column)) as [Hin|Hout].
  - by rewrite income_column_missing.
  - assert (∃ xs, column = Some <$> xs) as [xs ->].
    { clear -Hout. induction column as [|[x|] column IH].
      - by exists [].
      - destruct IH as [xs ->]; [by intros ?; apply Hout; right|].
        by exists (x :: xs).
      - exfalso. apply Hout. left. }
    rewrite income_column_strings. split; [done|].
    split; [by rewrite !length_fmap|].
    rewrite <- list_fmap_compose. apply Forall_fmap, Forall_true.
    intros x. simpl. exists (income_value x). split; [done|].
    apply income_value_shape.
Qed.

(** ** Country: what a cleaned column holds *)

(** X6.  After the Country statements no value of the column holds a [\n],
    and none is left that the two maps would rewrite: no alias, and no alias
    or [USA] followed by [\r].  Missing values stay missing, and the column
    keeps its number of rows. *)
Theorem country_column_cleaned (column : list cell) :
  length (country_column column) = length column ∧
  (∀ i, column !! i = Some None ↔ country_column column !! i = Some None) ∧
  Forall (λ c, ∀ v, c = Some v →
                    has_char "010" v = false ∧
                    (v ∉ usa_aliases) ∧ (v ∉ usa_aliases_cr))
    (country_column column).
Proof.
  unfold country_column. split; [by rewrite length_fmap|]. split.
  - intros i. rewrite list_lookup_fmap.
    destruct (column !! i) as [[x|]|]; simpl; [|done..].
    destruct (country_cell_cases x) as [[-> _]|(-> & _)]; split; done.
  - apply Forall_fmap, Forall_true. intros [x|] v; simpl; [|done].
    destruct (country_cell_cases x) as [[-> _]|(-> & H1 & H2)];
      intros [= <-].
    + split; [done|]. split; vm_compute;
        intros H; repeat (apply elem_of_cons in H as [H|H]; [discriminate H|]);
        by apply elem_of_nil in H.
    + split; [apply (str_replace_char_removes "010")|done].
Qed.

(** ** Name: title case *)

Lemma title_char_cases (a : ascii) :
  (is_upper a || is_lower a = false ∨
   (is_upper a || is_lower a = true ∧
    is_upper (to_upper a) = true ∧ is_lower (to_lower a) = true ∧
    to_upper (to_upper a) = to_upper a ∧ to_lower (to_lower a) = to_lower a)).
Proof.
  destruct a as [[] [] [] [] [] [] [] []]; vm_compute;
    first [left; reflexivity | right; repeat split; reflexivity].
Qed.

Lemma title_from_idempotent (prev : bool) (s : string) :
  title_from prev (title_from prev s) = title_from prev s.
Proof.
  revert prev. induction s as [|a s IH]; intros prev; [done|]. simpl.
  destruct (title_char_cases a) as [Hn|(Hl & Hu & Hlo & Huu & Hll)].
  - rewrite Hn. simpl. rewrite Hn. by rewrite IH.
  - rewrite Hl. simpl. destruct prev.
    + rewrite Hlo, orb_true_r, Hll. by rewrite IH.
    + rewrite Hu. simpl. rewrite Huu. by rewrite IH.
Qed.

Lemma title_from_length (prev : bool) (s : string) :
  String.length (title_from prev s) = String.length s.
Proof.
  revert prev. induction s as [|a s IH]; intros prev; [done|]. simpl.
  destruct (is_upper a || is_lower a); simpl; by rewrite IH.
Qed.

Lemma title_char_ascii (a : ascii) :
  (nat_of_ascii a <? 128) = true →
  (nat_of_ascii (to_upper a) <? 128) = true ∧
  (nat_of_ascii (to_lower a) <? 128) = true.
Proof.
  destruct a as [[] [] [] [] [] [] [] []]; vm_compute; intros H;
    first [discriminate H | split; reflexivity].
Qed.

Lemma title_from_ascii (prev : bool) (s : string) :
  is_ascii s = true → is_ascii (title_from prev s) = true.
Proof.
  unfold is_ascii. revert prev. induction s as [|a s IH]; intros prev; [done|].
  simpl. intros [Ha Hs]%andb_true_iff.
  destruct (title_char_ascii a Ha) as [Hu Hl].
  destruct (is_upper a || is_lower a); simpl; rewrite IH by done;
    [destruct prev; by rewrite ?Hu, ?Hl|by rewrite Ha].
Qed.

(** X7.  On names of ASCII characters the Name statement is idempotent and
    keeps lengths: the title case of a name is again such a name, of the
    same number of characters, and its own title case. *)
Theorem title_idempotent (s : string) :
  is_ascii s = true →
  is_ascii (title s) = true ∧
  title (title s) = title s ∧
  String.length (title s) = String.length s.
Proof.
  intros Hs. split; [by apply title_from_ascii|].
  split; [apply title_from_idempotent|apply title_from_length].
Qed.

Lemma title_idempotent_witness :
  is_ascii (title "john o'neil") = true ∧
  title (title "john o'neil") = title "john o'neil" ∧
  String.length (title "john o'neil") = String.length "john o'neil".
Proof. apply (title_idempotent "john o'neil"). reflexivity. Defined.

(** ** Email: what the inference does to any column *)

Lemma append_assoc (a b c : string) : (a +:+ b) +:+ c = a +:+ (b +:+ c).
Proof.
  induction a as [|x a IH]; [done|].
  change (String x ((a +:+ b) +:+ c) = String x (a +:+ (b +:+ c))).
  by rewrite IH.
Qed.

Lemma fill_appends (sub x : string) : ∃ t, fill sub x = x +:+ t.
Proof.
  unfold fill. destruct (endswith "." x); eauto.
Qed.

Lemma str_contains_raises (pat s : string) (e : exn) :
  str_contains pat s = Raise e → e = OutOfModel.
Proof.
  unfold str_contains. destruct (all_chars _ pat); [done|]. by intros [= <-].
Qed.

Lemma filled_refl (mask : list bool) (column : list string) :
  filled mask column column.
Proof.
  split; [done|]. intros i x Hi. exists EmptyString.
  by rewrite append_nil_r.
Qed.

Lemma filled_trans (mask : list bool) (c1 c2 c3 : list string) :
  filled mask c1 c2 → filled mask c2 c3 → filled mask c1 c3.
Proof.
  intros [L1 K1] [L2 K2]. split; [congruence|]. intros i x Hi.
  destruct (K1 i x Hi) as (t1 & H1 & E1).
  destruct (K2 i _ H1) as (t2 & H2 & E2).
  exists (t1 +:+ t2). rewrite <- append_assoc. split; [done|].
  intros Hm. by rewrite E1, E2.
Qed.

Lemma fill_rows_filled (label : string) (domains : list (list string))
    (mask : list bool) (column column' : list string) :
  length mask = length column →
  fill_rows label domains mask column = Ok column' →
  filled mask column column'.
Proof.
  intros Hlen. unfold fill_rows.
  destruct (mapM (str_contains label) column) as [hits|] eqn:Hh; [|done].
  simpl. intros [= <-].
  apply mapM_Ok_Forall2 in Hh. apply Forall2_length in Hh.
  split.
  - rewrite length_zip_with, length_zip. lia.
  - intros i x Hi. rewrite lookup_zip_with, lookup_zip_with.
    destruct (mask !! i) as [m|] eqn:Hm.
    2:{ apply lookup_ge_None in Hm. apply lookup_lt_Some in Hi. lia. }
    destruct (hits !! i) as [h|] eqn:Hhit.
    2:{ apply lookup_ge_None in Hhit. apply lookup_lt_Some in Hi. lia. }
    rewrite Hi. simpl.
    destruct m; simpl.
    + destruct h.
      * destruct (fill_appends
                    (most_frequent_subdomain (subdomain_candidates label domains)) x)
          as [t ->].
        exists t. split; [done|]. done.
      * exists EmptyString. by rewrite append_nil_r.
    + exists EmptyString. by rewrite append_nil_r.
Qed.

Lemma fill_loop_filled (labels : list string) (domains : list (list string))
    (mask : list bool) (column column' : list string) :
  length mask = length column →
  fill_loop labels domains mask column = Ok column' →
  filled mask column column'.
Proof.
  revert column. induction labels as [|label labels IH]; intros column Hlen.
  - intros [= <-]. apply filled_refl.
  - simpl. destruct (fill_rows label domains mask column) as [c1|] eqn:H1; [|done].
    simpl. intros H2.
    pose proof (fill_rows_filled _ _ _ _ _ Hlen H1) as F1.
    eapply filled_trans; [exact F1|].
    apply IH; [|done]. destruct F1 as [-> _]. done.
Qed.

Lemma fill_loop_raises (labels : list string) (domains : list (list string))
    (mask : list bool) (column : list string) (e : exn) :
  fill_loop labels domains mask column = Raise e → e = OutOfModel.
Proof.
  revert column. induction labels as [|label labels IH]; intros column; [done|].
  simpl. destruct (fill_rows label domains mask column) as [c1|e1] eqn:H1; simpl.
  - apply IH.
  - intros [= <-]. unfold fill_rows in H1.
    destruct (mapM (str_contains label) column) as [hits|e2] eqn:Hh; [done|].
    simpl in H1. injection H1 as <-.
    apply mapM_Raise_Exists, Exists_exists in Hh as (s & _ & Hs).
    by eapply str_contains_raises.
Qed.

Lemma mapM_id_cells (column : list cell) :
  match mapM (M := option) id column with
  | Some strings => column = Some <$> strings
  | None => None ∈ column
  end.
Proof.
  induction column as [|[x|] column IH]; [done| |left].
  cbn. destruct (mapM id column) as [strings|].
  - simpl. by rewrite IH.
  - simpl. by right.
Qed.

(** X8.  When the inference succeeds, the column keeps its number of rows and
    every address comes out as its trimmed text followed by what the loop
    appended: nothing is ever removed or rewritten inside an address.  An
    address whose domain has several labels (a [.] after the last [@], one
    trailing [.] aside) gets nothing appended: it is only trimmed. *)
Theorem assume_subdomains_appends (column out : list cell) :
  assume_subdomains column = Ok out →
  length out = length column ∧
  ∀ i c, column !! i = Some c →
    ∃ x t, c = Some x ∧ out !! i = Some (Some (strip x +:+ t)) ∧
           (length (email_labels (strip x)) ≠ 1 → t = EmptyString).
Proof.
  unfold assume_subdomains. pose proof (mapM_id_cells column) as Hc.
  destruct (mapM id column) as [strings|]; [|done]. subst column.
  unfold assume_subdomains_str.
  set (col := strip <$> strings).
  set (mask := (λ d : list string, bool_decide (length d = 1))
                 <$> (email_labels <$> col)).
  destruct (fill_loop _ _ mask col) as [col'|] eqn:Hrun; [|done].
  simpl. intros [= <-].
  apply fill_loop_filled in Hrun as [Hlen Hrows];
    [|by unfold mask; rewrite !length_fmap].
  split; [unfold col in Hlen; by rewrite !length_fmap in *|].
  intros i c Hi. rewrite list_lookup_fmap in Hi.
  destruct (strings !! i) as [x|] eqn:Hx; [|done]. injection Hi as <-.
  destruct (Hrows i (strip x)) as (t & Ht & Hmask).
  { unfold col. by rewrite list_lookup_fmap, Hx. }
  exists x, t. split; [done|]. rewrite list_lookup_fmap, Ht. split; [done|].
  intros Hne. apply Hmask. unfold mask, col.
  rewrite !list_lookup_fmap, Hx. simpl. by rewrite bool_decide_eq_false_2.
Qed.

Lemma assume_subdomains_appends_witness :
  length [Some "a@gmail.com"; Some "b@gmail.com"] = 2 ∧
  ∀ i c, [Some " a@gmail"; Some "b@gmail.com "] !! i = Some c →
    ∃ x t, c = Some x ∧
           [Some "a@gmail.com"; Some "b@gmail.com"] !! i
             = Some (Some (strip x +:+ t)) ∧
           (length (email_labels (strip x)) ≠ 1 → t = EmptyString).
Proof.
  apply (assume_subdomains_appends [Some " a@gmail"; Some "b@gmail.com "]).
  reflexivity.
Defined.

(** X9.  A column in which no address lacks a second label goes through the
    inference trimmed and otherwise unchanged, whatever characters the
    addresses hold: the loop of line 72 has nothing to run over. *)
Theorem assume_subdomains_nothing_to_fill (column : list string) :
  Forall (λ x, length (email_labels (strip x)) ≠ 1) column →
  assume_subdomains (Some <$> column) = Ok (Some <$> (strip <$> column)).
Proof.
  intros Hall. unfold assume_subdomains.
  assert (mapM (M := option) id (Some <$> column) = Some column) as ->.
  { apply mapM_Some. apply Forall2_fmap_l, Forall_Forall2_diag, Forall_true. done. }
  unfold assume_subdomains_str.
  rewrite omap_none; [done|].
  intros j d Hj. rewrite !list_lookup_fmap in Hj.
  destruct (column !! j) as [x|] eqn:Hx; [|done]. injection Hj as <-.
  rewrite bool_decide_eq_false_2; [done|].
  rewrite Forall_forall in Hall. apply Hall.
  by eapply list_elem_of_lookup_2.
Qed.

Lemma assume_subdomains_nothing_to_fill_witness :
  assume_subdomains (Some <$> [" a+b@foo.com"; "c@(mail).foo.com "])
  = Ok (Some <$> (strip <$> [" a+b@foo.com"; "c@(mail).foo.com "])).
Proof.
  apply (assume_subdomains_nothing_to_fill [" a+b@foo.com"; "c@(mail).foo.com "]).
  repeat constructor; vm_compute; lia.
Defined.

(** X10.  The inference ends with [AttributeError] exactly when the column
    holds a missing value (the lambda of line 67 calls [endswith] on it). *)
Theorem assume_subdomains_missing (column : list cell) :
  assume_subdomains column = Raise AttributeError ↔ None ∈ column.
Proof.
  unfold assume_subdomains. pose proof (mapM_id_cells column) as Hc.
  destruct (mapM id column) as [strings|]; [|done].
  split.
  - unfold assume_subdomains_str.
    destruct (fill_loop _ _ _ _) as [|e] eqn:Hrun; [done|].
    simpl. intros [= ->]. by apply fill_loop_raises in Hrun.
  - subst column. intros Hin. apply list_elem_of_fmap in Hin as (x & ? & _). done.
Qed.

(** ** Dates: outcome of the loop *)

(** X11.  The loop over the dates turns every value into a string, the
    formatted date when the library call succeeds and [unknown] when it
    raises [ValueError] or [TypeError], and keeps the number of rows; it
    never ends with [ValueError] or [TypeError], and when it ends with
    another exception, that is one the library call raised on a value of the
    column. *)
Theorem standardize_dates_outcome (parse_strftime : cell → result string)
    (date_series : list cell) :
  match standardize_dates parse_strftime date_series with
  | Ok out =>
      length out = length date_series ∧
      (None ∉ out) ∧
      Forall2 (λ date c, c = match parse_strftime date with
                             | Ok formatted => Some formatted
                             | Raise _ => Some "unknown"
                             end) date_series out
  | Raise e =>
      e ≠ ValueError ∧ e ≠ TypeError ∧
      Exists (λ date, parse_strftime date = Raise e) date_series
  end.
Proof.
  unfold standardize_dates.
  destruct (mapM (standardize_date parse_strftime) date_series)
    as [out|e] eqn:Hrun.
  - apply mapM_Ok_Forall2 in Hrun.
    assert (Forall2 (λ date c, c = match parse_strftime date with
                                   | Ok formatted => Some formatted
                                   | Raise _ => Some "unknown"
                                   end) date_series out) as H.
    { eapply Forall2_impl; [exact Hrun|]. simpl. intros date c.
      unfold standardize_date.
      destruct (parse_strftime date) as [s|[]]; by intros [= <-]. }
    split; [symmetry; by eapply Forall2_length|]. split; [|done].
    clear Hrun. induction H as [|date c ? ? Hc _ IH]; [by intros ?%elem_of_nil|].
    intros [Hn|Hn]%elem_of_cons; [|done].
    subst c. by destruct (parse_strftime date).
  - apply mapM_Raise_Exists in Hrun.
    assert (Exists (λ date, e ≠ ValueError ∧ e ≠ TypeError ∧
                            parse_strftime date = Raise e) date_series) as Hex.
    { eapply Exists_impl; [exact Hrun|]. simpl. intros date.
      unfold standardize_date.
      destruct (parse_strftime date) as [s|[]]; by intros [= <-]. }
    split; [|split].
    + apply Exists_exists in Hex as (? & _ & ? & _). done.
    + apply Exists_exists in Hex as (? & _ & _ & ? & _). done.
    + eapply Exists_impl; [exact Hex|]. simpl. by intros ? (_ & _ & ?).
Qed.

(** ** The whole routine: labels, shape and the columns it leaves alone *)

Lemma DataFrame_Ok (rows : list (list string)) (header : list string)
    (data : frame) :
  DataFrame rows header = Ok data →
  data.*1 = header ∧
  rectangular (length rows) data ∧
  ∀ j h, header !! j = Some h →
         data !! j = Some (h, (λ r : list string, r !! j) <$> rows).
Proof.
  unfold DataFrame, rectangular.
  assert (∀ l : list (list string),
            (imap (λ j h, (h, (λ r : list string, r !! j) <$> l)) header).*1 = header
            ∧ Forall (λ c : string * list cell, length c.2 = length l)
                (imap (λ j h, (h, (λ r : list string, r !! j) <$> l)) header)
            ∧ ∀ j h, header !! j = Some h →
                imap (λ j h, (h, (λ r : list string, r !! j) <$> l)) header !! j
                = Some (h, (λ r : list string, r !! j) <$> l)) as Himap.
  { intros l. split; [|split].
    - apply list_eq. intros j.
      rewrite list_lookup_fmap, list_lookup_imap. by destruct (header !! j).
    - apply Forall_lookup. intros j c. rewrite list_lookup_imap.
      destruct (header !! j); intros [= <-]. simpl. by rewrite length_fmap.
    - intros j h Hj. by rewrite list_lookup_imap, Hj. }
  destruct rows as [|r rows].
  - intros [= <-]. split; [|split].
    + rewrite <- list_fmap_compose. by rewrite list_fmap_id.
    + by apply Forall_fmap, Forall_true.
    + intros j h Hj. by rewrite list_lookup_fmap, Hj.
  - case_decide; [|done]. intros [= <-]. exact (Himap (r :: rows)).
Qed.

Lemma clean_data_steps (parse_strftime : cell → result string)
    (raw_text : list string) (data : frame) :
  clean_data parse_strftime raw_text = Ok data →
  ∃ header rows d0 d1 d2 d3 d4 d5,
    extract_income (parse_rows raw_text) = Ok (header :: rows) ∧
    DataFrame rows header = Ok d0 ∧
    clean_income d0 = Ok d1 ∧ clean_country d1 = Ok d2 ∧
    clean_name d2 = Ok d3 ∧ clean_email d3 = Ok d4 ∧
    clean_date parse_strftime d4 = Ok d5 ∧ clean_age d5 = Ok data.
Proof.
  unfold clean_data.
  destruct (extract_income (parse_rows raw_text)) as [[|header rows]|]; [done| |done].
  simpl. rewrite drop_0.
  destruct (DataFrame rows header) as [d0|] eqn:H0; simpl; [|done].
  destruct (clean_income d0) as [d1|] eqn:H1; simpl; [|done].
  destruct (clean_country d1) as [d2|] eqn:H2; simpl; [|done].
  destruct (clean_name d2) as [d3|] eqn:H3; simpl; [|done].
  destruct (clean_email d3) as [d4|] eqn:H4; simpl; [|done].
  destruct (clean_date parse_strftime d4) as [d5|] eqn:H5; simpl; [|done].
  intros H. by exists header, rows, d0, d1, d2, d3, d4, d5.
Qed.

Lemma clean_steps_keep (parse_strftime : cell → result string) (d d' : frame) :
  (clean_income d = Ok d' → keeps_others "Income" d d') ∧
  (clean_country d = Ok d' → keeps_others "Country" (rename country_rename d) d') ∧
  (clean_name d = Ok d' → keeps_others "Name" d d') ∧
  (clean_email d = Ok d' → keeps_others "Email" d d') ∧
  (clean_date parse_strftime d = Ok d' → keeps_others "Date of Birth" d d') ∧
  (clean_age d = Ok d' → keeps_others "Age" d d').
Proof.
  unfold clean_income, clean_country, clean_name, clean_email, clean_date,
    clean_age.
  repeat apply conj; intros Hrun; step_keeps.
Qed.

(** When the routine succeeds, the frame has one column for each field
    of the header, in the order of the header, labelled as in the header but
    for [Country\n] and [Country\r\n], which become [Country]; and a column
    that is none of the six cleaned ones holds, row by row, the field the
    repaired row has at that position, or a missing value where the row is
    too short. *)
Corollary clean_data_other_columns (parse_strftime : cell → result string)
    (raw_text : list string) (data : frame) :
  clean_data parse_strftime raw_text = Ok data →
  ∃ header rows,
    extract_income (parse_rows raw_text) = Ok (header :: rows) ∧
    data.*1 = renamed country_rename <$> header ∧
    ∀ j h, header !! j = Some h →
      renamed country_rename h ∉
        ["Income"; "Country"; "Name"; "Email"; "Date of Birth"; "Age"] →
      data !! j = Some (h, (λ r : list string, r !! j) <$> rows).
Proof.
  intros (header & rows & d0 & d1 & d2 & d3 & d4 & d5 & Hx & H0 & H1 & H2
          & H3 & H4 & H5 & H6)%clean_data_steps.
  exists header, rows. split; [done|].
  apply DataFrame_Ok in H0 as (L0 & _ & K0).
  apply (clean_steps_keep parse_strftime) in H1 as [L1 K1].
  apply (clean_steps_keep parse_strftime) in H2 as [L2 K2].
  apply (clean_steps_keep parse_strftime) in H3 as [L3 K3].
  apply (clean_steps_keep parse_strftime) in H4 as [L4 K4].
  apply (clean_steps_keep parse_strftime) in H5 as [L5 K5].
  apply (clean_steps_keep parse_strftime) in H6 as [L6 K6].
  split.
  - by rewrite L6, L5, L4, L3, L2, rename_labels, L1, L0.
  - intros j h Hj Hout.
    apply not_elem_of_cons in Hout as [N1 Hout].
    apply not_elem_of_cons in Hout as [N2 Hout].
    apply not_elem_of_cons in Hout as [N3 Hout].
    apply not_elem_of_cons in Hout as [N4 Hout].
    apply not_elem_of_cons in Hout as [N5 Hout].
    apply not_elem_of_cons in Hout as [N6 _].
    assert (renamed country_rename h = h) as Hh.
    { revert N2. unfold renamed, country_rename. simpl.
      repeat case_decide; simpl in *; done. }
    rewrite Hh in N1, N2, N3, N4, N5, N6.
    apply K6; [|done]. apply K5; [|done]. apply K4; [|done].
    apply K3; [|done]. apply K2; [|done].
    rewrite <- Hh at 1. apply rename_lookup.
    apply K1; [|done]. by apply K0.
Qed.

Lemma update_column_rectangular (dup : exn) (name : string)
    (f : list cell → result (list cell)) (data data' : frame) (n : nat) :
  (∀ col col', f col = Ok col' → length col' = length col) →
  update_column dup name f data = Ok data' →
  rectangular n data → rectangular n data'.
Proof.
  intros Hf. unfold update_column, rectangular.
  destruct (get_column dup name data) as [column|] eqn:Hg; [|done]. simpl.
  destruct (f column) as [column'|] eqn:Hc; [|done]. simpl.
  intros [= <-] Hrect.
  assert (length column = n) as Hn.
  { unfold get_column in Hg.
    destruct (filter _ data) as [|c [|]] eqn:Hfil; try done.
    injection Hg as <-.
    assert (c ∈ filter (λ c : string * list cell, c.1 = name) data) as Hin
      by (rewrite Hfil; left).
    apply list_elem_of_filter in Hin as [_ Hin].
    rewrite Forall_forall in Hrect. by apply Hrect. }
  rewrite (set_column_present name column' data)
    by (by eapply get_column_label).
  apply Forall_fmap. eapply Forall_impl; [exact Hrect|].
  intros c Hlen. simpl. case_decide; [|done]. simpl.
  rewrite (Hf _ _ Hc). done.
Qed.

Lemma assume_subdomains_length (column out : list cell) :
  assume_subdomains column = Ok out → length out = length column.
Proof.
  unfold assume_subdomains. pose proof (mapM_id_cells column) as Hc.
  destruct (mapM id column) as [strings|]; [|done]. subst column.
  unfold assume_subdomains_str.
  destruct (fill_loop _ _ _ _) as [col'|] eqn:Hrun; [|done].
  simpl. intros [= <-].
  apply fill_loop_filled in Hrun as [Hlen _]; [|by rewrite !length_fmap].
  by rewrite !length_fmap in *.
Qed.

Lemma mapM_Ok_length {A B} (f : A → result B) (l : list A) (k : list B) :
  mapM f l = Ok k → length k = length l.
Proof. intros H%mapM_Ok_Forall2. symmetry. by eapply Forall2_length. Qed.

Ltac step_rectangular :=
  repeat match goal with
    | H : (update_column ?d ?n ?f ?x ≫= _) = Ok _ |- _ =>
        let E := fresh "E" in
        destruct (update_column d n f x) eqn:E; [simpl in H|done]
    | H : update_column _ _ _ ?x = Ok ?y, R : rectangular ?n ?x
      |- rectangular ?n _ =>
        apply (update_column_rectangular _ _ _ _ _ n) in H;
        [clear R|
         intros ? ?; unfold str_method, age_column;
         first [ intros [= <-]; by rewrite ?length_fmap
               | apply mapM_Ok_length
               | apply assume_subdomains_length ]
         |exact R]
    end.

Lemma normalize_rectangular (parse_strftime : cell → result string)
    (step : normalizer) (data data' : frame) (n : nat) :
  normalize parse_strftime step data = Ok data' →
  rectangular n data → rectangular n data'.
Proof.
  intros Hrun Hrect.
  destruct step; simpl in Hrun;
    unfold clean_income, clean_country, clean_name, clean_email, clean_date,
      clean_age, standardize_dates in Hrun.
  2:{ assert (rectangular n (rename country_rename data)) as Hrect'.
      { unfold rename. apply Forall_fmap. exact Hrect. }
      clear Hrect. step_rectangular. done. }
  all: step_rectangular; done.
Qed.

(** X12.  When the routine succeeds, the input had a header line, and every
    column of the frame has one cell for each line after the header: no step
    adds or drops a row. *)
Theorem clean_data_shape (parse_strftime : cell → result string)
    (raw_text : list string) (data : frame) :
  clean_data parse_strftime raw_text = Ok data →
  0 < length raw_text ∧
  Forall (λ c : string * list cell, length c.2 = length raw_text - 1) data.
Proof.
  intros (header & rows & d0 & d1 & d2 & d3 & d4 & d5 & Hx & H0 & H1 & H2
          & H3 & H4 & H5 & H6)%clean_data_steps.
  apply mapM_Ok_length in Hx. unfold parse_rows in Hx.
  rewrite length_fmap in Hx. simpl in Hx.
  split; [lia|].
  replace (length raw_text - 1) with (length rows) by lia.
  apply DataFrame_Ok in H0 as (_ & R0 & _).
  apply (normalize_rectangular parse_strftime Age d5); [done|].
  apply (normalize_rectangular parse_strftime DateOfBirth d4); [done|].
  apply (normalize_rectangular parse_strftime Email d3); [done|].
  apply (normalize_rectangular parse_strftime Name d2); [done|].
  apply (normalize_rectangular parse_strftime Country d1); [done|].
  by apply (normalize_rectangular parse_strftime Income d0).
Qed.

Lemma clean_data_shape_witness :
  0 < length ["Name,Email,Date of Birth,Age,Income,City,Country" +:+ nl;
              "ann lee,a@gmail.com,3/4/1999,33,$5,Oslo,Canada" +:+ nl] ∧
  Forall (λ c : string * list cell,
            length c.2 =
              length ["Name,Email,Date of Birth,Age,Income,City,Country" +:+ nl;
                      "ann lee,a@gmail.com,3/4/1999,33,$5,Oslo,Canada" +:+ nl] - 1)
    [("Name", [Some "Ann Lee"]); ("Email", [Some "a@gmail.com"]);
     ("Date of Birth", [Some "unknown"]); ("Age", [Some "33"]);
     ("Income", [Some "5.00"]); ("City", [Some "Oslo"]);
     ("Country", [Some "Canada"])].
Proof.
  apply (clean_data_shape (λ _, Raise ValueError)). reflexivity.
Defined.

(** ** The whole routine, column by column *)

Lemma get_column_only (dup : exn) (name : string) (data : frame)
    (column : list cell) :
  get_column dup name data = Ok column →
  ∀ j c, data !! j = Some (name, c) → c = column.
Proof.
  unfold get_column.
  destruct (filter (λ c : string * list cell, c.1 = name) data)
    as [|c0 [|]] eqn:Hf; try done.
  intros [= <-] j c Hj.
  assert ((name, c) ∈ filter (λ c : string * list cell, c.1 = name) data) as Hin.
  { apply list_elem_of_filter. split; [done|]. by eapply list_elem_of_lookup_2. }
  rewrite Hf in Hin. apply list_elem_of_singleton in Hin. by subst c0.
Qed.

Lemma set_column_target (dup : exn) (name : string) (data : frame)
    (column column' : list cell) :
  get_column dup name data = Ok column →
  ∀ j c, data !! j = Some (name, c) →
         set_column name column' data !! j = Some (name, column').
Proof.
  intros Hg j c Hj.
  rewrite set_column_present by (by eapply get_column_label).
  rewrite list_lookup_fmap, Hj. simpl. by rewrite decide_True.
Qed.

Lemma get_column_dup (d1 d2 : exn) (name : string) (data : frame)
    (column : list cell) :
  get_column d1 name data = Ok column → get_column d2 name data = Ok column.
Proof.
  unfold get_column. by destruct (filter _ data) as [|c [|]].
Qed.

Lemma update_column_assigns (dup : exn) (name : string)
    (f : list cell → result (list cell)) (data data' : frame) :
  update_column dup name f data = Ok data' ↔ assigns name f data data'.
Proof.
  unfold assigns. split.
  - unfold update_column.
    destruct (get_column dup name data) as [column|] eqn:Hg; [|done]. simpl.
    destruct (f column) as [column'|] eqn:Hf; [|done]. simpl.
    intros [= <-]. exists column, column'.
    split; [by eapply get_column_dup|done].
  - intros (column & column' & Hg & Hf & ->).
    rewrite (update_column_found _ _ _ _ _ _ Hg), Hf. done.
Qed.

Lemma clean_steps_assign (parse_strftime : cell → result string) (d d' : frame) :
  (clean_income d = Ok d' ↔ assigns "Income" income_column d d') ∧
  (clean_country d = Ok d' ↔
   assigns "Country" (λ col, Ok (country_column col)) (rename country_rename d) d') ∧
  (clean_name d = Ok d' ↔
   assigns "Name" (λ col, Ok (str_method title col)) d d') ∧
  (clean_email d = Ok d' ↔ assigns "Email" email_column d d') ∧
  (clean_date parse_strftime d = Ok d' ↔
   assigns "Date of Birth" (standardize_dates parse_strftime) d d') ∧
  (clean_age d = Ok d' ↔ assigns "Age" (λ col, Ok (age_column col)) d d').
Proof.
  split; [|split; [|split; [|split; [|split]]]].
  - rewrite <- (update_column_assigns AttributeError).
    destruct (get_column AttributeError "Income" d) as [col|e] eqn:Hg.
    + rewrite (proj1 (clean_steps_on_columns d col) Hg).
      by rewrite (update_column_found _ _ _ _ _ _ Hg).
    + unfold clean_income, update_column. by rewrite Hg.
  - rewrite <- (update_column_assigns AttributeError).
    destruct (get_column AttributeError "Country" (rename country_rename d))
      as [col|e] eqn:Hg.
    + rewrite (proj1 (proj2 (clean_steps_on_columns d col)) Hg).
      by rewrite (update_column_found _ _ _ _ _ _ Hg).
    + unfold clean_country, update_column. by rewrite Hg.
  - apply update_column_assigns.
  - rewrite <- (update_column_assigns AttributeError).
    destruct (get_column AttributeError "Email" d) as [col|e] eqn:Hg.
    + rewrite (proj1 (proj2 (proj2 (clean_steps_on_columns d col))) Hg).
      by rewrite (update_column_found _ _ _ _ _ _ Hg).
    + unfold clean_email, update_column. by rewrite Hg.
  - apply update_column_assigns.
  - apply update_column_assigns.
Qed.

Lemma assigns_columns (name : string) (f : list cell → result (list cell))
    (data data' : frame) :
  assigns name f data data' →
  data'.*1 = data.*1 ∧
  ∀ j n c, data !! j = Some (n, c) →
    ∃ c', (if decide (n = name) then f c else Ok c) = Ok c' ∧
          data' !! j = Some (n, c').
Proof.
  intros (column & column' & Hg & Hf & ->).
  pose proof (set_column_keeps name column' data (get_column_label _ _ _ _ Hg))
    as [L K].
  split; [done|]. intros j n c Hj. case_decide as Hn.
  - subst n. rewrite (get_column_only _ _ _ _ Hg j c Hj).
    exists column'. split; [done|]. by eapply set_column_target.
  - exists c. split; [done|]. by apply K.
Qed.

Lemma renamed_country_cases (h : string) :
  renamed country_rename h = h ∨
  (renamed country_rename h = "Country" ∧
   (h = "Country" +:+ nl ∨ h = "Country" +:+ cr +:+ nl)).
Proof.
  unfold renamed, country_rename. simpl.
  repeat case_decide; simpl in *; auto.
Qed.



(** ** When the routine succeeds *)

Lemma filter_label_absent (name : string) (data : frame) :
  name ∉ data.*1 →
  filter (λ c : string * list cell, c.1 = name) data = [].
Proof.
  intros Hout.
  destruct (filter (λ c : string * list cell, c.1 = name) data)
    as [|c rest] eqn:Hf; [done|].
  exfalso. apply Hout.
  assert (c ∈ filter (λ c : string * list cell, c.1 = name) data) as Hc
    by (rewrite Hf; left).
  apply list_elem_of_filter in Hc as [<- Hc].
  apply list_elem_of_fmap. by exists c.
Qed.

Lemma get_column_NoDup (dup : exn) (name : string) (data : frame) (j : nat)
    (column : list cell) :
  NoDup data.*1 → data !! j = Some (name, column) →
  get_column dup name data = Ok column.
Proof.
  intros Hnd Hj. unfold get_column.
  assert (filter (λ c : string * list cell, c.1 = name) data = [(name, column)])
    as ->; [|done].
  revert j Hj. induction data as [|c data IH]; intros j Hj; [done|].
  rewrite fmap_cons in Hnd. apply NoDup_cons in Hnd as [Hc Hnd].
  rewrite filter_cons. destruct j as [|j]; simpl in *.
  - injection Hj as ->. simpl in *. rewrite decide_True by done. f_equal.
    by apply filter_label_absent.
  - rewrite decide_False; [by eapply IH|].
    intros Heq. apply Hc. rewrite Heq.
    apply list_elem_of_fmap. exists (name, column).
    split; [done|]. by eapply list_elem_of_lookup_2.
Qed.

Lemma assigns_exists (name : string) (f : list cell → result (list cell))
    (data : frame) (j : nat) (column column' : list cell) :
  NoDup data.*1 → data !! j = Some (name, column) → f column = Ok column' →
  assigns name f data (set_column name column' data).
Proof.
  intros Hnd Hj Hf. exists column, column'.
  split; [by eapply get_column_NoDup|done].
Qed.

Lemma pending_step (header : list string) (rows : list (list string))
    (done : list string) (name : string) (f : list cell → result (list cell))
    (data data' : frame) :
  pending header rows done data → assigns name f data data' →
  pending header rows (name :: done) data'.
Proof.
  intros [L K] (column & column' & Hg & Hf & ->).
  pose proof (set_column_keeps name column' data (get_column_label _ _ _ _ Hg))
    as [L' K'].
  split; [congruence|]. intros j h Hj [Hn Hd]%not_elem_of_cons.
  apply K'; [|done]. by apply K.
Qed.

Lemma pending_run (parse_strftime : cell → result string)
    (header : list string) (rows : list (list string))
    (done : list string) (name : string) (f : list cell → result (list cell))
    (data : frame) :
  NoDup (renamed country_rename <$> header) →
  (∀ j h, header !! j = Some h →
     ∃ column', clean_column parse_strftime (renamed country_rename h)
                  ((λ r : list string, r !! j) <$> rows) = Ok column') →
  (∀ column, clean_column parse_strftime name column = f column) →
  name ∈ renamed country_rename <$> header → name ∉ done →
  pending header rows done data →
  ∃ data', assigns name f data data' ∧ pending header rows (name :: done) data'.
Proof.
  intros Hnd Hcols Hf Hin Hout Hp.
  apply list_elem_of_fmap in Hin as (h & -> & Hin).
  apply list_elem_of_lookup_1 in Hin as [j Hj].
  destruct (Hcols j h Hj) as [column' Hc]. rewrite Hf in Hc.
  destruct Hp as [L K].
  eexists. split.
  - eapply (assigns_exists _ _ data j); [by rewrite L| |exact Hc].
    by apply K.
  - eapply pending_step; [by split|].
    eapply (assigns_exists _ _ data j); [by rewrite L| |exact Hc].
    by apply K.
Qed.

(** X14.  The routine succeeds on a file whose repaired table fits a frame
    (no data row, or the widest data row as wide as the header), whose
    labels, [Country\n] and [Country\r\n] read as [Country], are pairwise
    distinct and include the six cleaned ones, and in which the statements
    for each column succeed on the fields of that column. *)
Theorem clean_data_succeeds (parse_strftime : cell → result string)
    (raw_text : list string) (header : list string)
    (rows : list (list string)) :
  extract_income (parse_rows raw_text) = Ok (header :: rows) →
  rows = [] ∨ max_list (length <$> rows) = length header →
  NoDup (renamed country_rename <$> header) →
  Forall (λ name, name ∈ renamed country_rename <$> header) cleaned_labels →
  (∀ j h, header !! j = Some h →
     ∃ column', clean_column parse_strftime (renamed country_rename h)
                  ((λ r : list string, r !! j) <$> rows) = Ok column') →
  ∃ data, clean_data parse_strftime raw_text = Ok data.
Proof.
  intros Hx Hshape Hnd Hsix Hcols.
  unfold cleaned_labels in Hsix.
  apply Forall_cons in Hsix as [S1 Hsix]. apply Forall_cons in Hsix as [S2 Hsix].
  apply Forall_cons in Hsix as [S3 Hsix]. apply Forall_cons in Hsix as [S4 Hsix].
  apply Forall_cons in Hsix as [S5 Hsix]. apply Forall_cons in Hsix as [S6 _].
  assert (∃ d0, DataFrame rows header = Ok d0) as [d0 H0].
  { unfold DataFrame. destruct Hshape as [->|Hw]; [by eexists|].
    destruct rows; [by eexists|]. rewrite decide_True by done. by eexists. }
  pose proof (DataFrame_Ok _ _ _ H0) as (L0 & _ & K0).
  (* Income, on the labels of the header *)
  assert (∃ d1, clean_income d0 = Ok d1 ∧
                pending header rows ["Income"] (rename country_rename d1))
    as (d1 & H1 & P1).
  { apply list_elem_of_fmap in S1 as (h & Hr & Hin).
    apply list_elem_of_lookup_1 in Hin as [j Hj].
    destruct (Hcols j h Hj) as [c1 Hc]. rewrite <- Hr in Hc.
    assert (h = "Income") as ->.
    { destruct (renamed_country_cases h) as [E|[E _]]; congruence. }
    pose proof (assigns_exists "Income" income_column d0 j _ c1
                  ltac:(rewrite L0; by eapply NoDup_fmap_1) (K0 _ _ Hj) Hc) as Ha.
    eexists. split; [by apply (clean_steps_assign parse_strftime)|].
    apply assigns_columns in Ha as [L1 _].
    destruct (set_column_keeps "Income" c1 d0) as [_ K1].
    { rewrite L0. by eapply list_elem_of_lookup_2. }
    split; [by rewrite rename_labels, L1, L0|].
    intros i h' Hi Hn. apply rename_lookup. apply K1; [by apply K0|].
    intros ->. apply Hn. left. }
  assert (∀ (name : string) (done : list string),
            Forall (λ n, n ≠ name) done → name ∉ done) as Hfresh.
  { intros name done Hall Hin. rewrite Forall_forall in Hall.
    by apply (Hall name). }
  destruct (pending_run parse_strftime header rows ["Income"] "Country"
              (λ col, Ok (country_column col)) _ Hnd Hcols (λ _, eq_refl) S2
              ltac:(apply Hfresh; by repeat constructor) P1)
    as (d2 & H2 & P2).
  destruct (pending_run parse_strftime header rows ["Country"; "Income"] "Name"
              (λ col, Ok (str_method title col)) _ Hnd Hcols (λ _, eq_refl) S3
              ltac:(apply Hfresh; by repeat constructor) P2)
    as (d3 & H3 & P3).
  destruct (pending_run parse_strftime header rows ["Name"; "Country"; "Income"] "Email"
              email_column _ Hnd Hcols (λ _, eq_refl) S4
              ltac:(apply Hfresh; by repeat constructor) P3)
    as (d4 & H4 & P4).
  destruct (pending_run parse_strftime header rows
              ["Email"; "Name"; "Country"; "Income"] "Date of Birth"
              (standardize_dates parse_strftime) _ Hnd Hcols (λ _, eq_refl) S5
              ltac:(apply Hfresh; by repeat constructor) P4)
    as (d5 & H5 & P5).
  destruct (pending_run parse_strftime header rows
              ["Date of Birth"; "Email"; "Name"; "Country"; "Income"] "Age"
              (λ col, Ok (age_column col)) _ Hnd Hcols (λ _, eq_refl) S6
              ltac:(apply Hfresh; by repeat constructor) P5)
    as (d6 & H6 & P6).
  exists d6. unfold clean_data. rewrite Hx. simpl. rewrite drop_0, H0. simpl.
  rewrite H1. simpl.
  rewrite (proj2 (proj1 (proj2 (clean_steps_assign parse_strftime d1 d2))) H2).
  simpl.
  rewrite (proj2 (proj1 (proj2 (proj2 (clean_steps_assign parse_strftime d2 d3)))) H3).
  simpl.
  rewrite (proj2 (proj1 (proj2 (proj2 (proj2
             (clean_steps_assign parse_strftime d3 d4))))) H4).
  simpl.
  rewrite (proj2 (proj1 (proj2 (proj2 (proj2 (proj2
             (clean_steps_assign parse_strftime d4 d5)))))) H5).
  simpl.
  by apply (clean_steps_assign parse_strftime d5 d6).
Qed.

Lemma clean_data_succeeds_witness :
  ∃ data,
    clean_data (λ _, Raise ValueError)
      ["Name,Email,Date of Birth,Age,Income,City,Country" +:+ nl;
       "john doe,j@@gmail,1/2/2000,,$1,200,Rome,us" +:+ cr +:+ nl;
       "ann lee,a@gmail.com,3/4/1999,33,$5,Oslo,Canada" +:+ nl]
    = Ok data.
Proof.
  apply (clean_data_succeeds (λ _, Raise ValueError)
           ["Name,Email,Date of Birth,Age,Income,City,Country" +:+ nl;
            "john doe,j@@gmail,1/2/2000,,$1,200,Rome,us" +:+ cr +:+ nl;
            "ann lee,a@gmail.com,3/4/1999,33,$5,Oslo,Canada" +:+ nl]
           ["Name"; "Email"; "Date of Birth"; "Age"; "Income"; "City";
            "Country" +:+ nl]
           [["john doe"; "j@@gmail"; "1/2/2000"; EmptyString; "$1200"; "Rome";
             "us" +:+ cr +:+ nl];
            ["ann lee"; "a@gmail.com"; "3/4/1999"; "33"; "$5"; "Oslo";
             "Canada" +:+ nl]]).
  - reflexivity.
  - right. reflexivity.
  - apply (bool_decide_unpack _). vm_compute. exact I.
  - apply (bool_decide_unpack _). vm_compute. exact I.
  - intros [|[|[|[|[|[|[|j]]]]]]] h Hj; simpl in Hj; try done;
      injection Hj as <-; eexists; vm_compute; reflexivity.
Defined.

(** ** Reading the file *)

Lemma join_empty_cons (x : string) (l : list string) :
  join EmptyString (x :: l) = x +:+ join EmptyString l.
Proof. destruct l; [by rewrite append_nil_r|done]. Qed.

Lemma file_lines_join (content : string) :
  join EmptyString (file_lines content) = content.
Proof.
  induction content as [|a rest IH]; [done|]. simpl.
  destruct (Ascii.eqb a "010").
  - rewrite join_empty_cons, IH. done.
  - destruct (file_lines rest) as [|line lines]; [by rewrite <- IH|].
    rewrite join_empty_cons in *.
    change (String a line +:+ join EmptyString lines)
      with (String a (line +:+ join EmptyString lines)).
    by rewrite IH.
Qed.

Lemma file_lines_shape (content : string) :
  Forall is_line (file_lines content) ∧
  ∀ i line, file_lines content !! i = Some line →
            S i < length (file_lines content) → endswith "010" line = true.
Proof.
  induction content as [|a rest [IH1 IH2]]; [split; [constructor|done]|].
  simpl. destruct (Ascii.eqb a "010") eqn:E.
  - split; [constructor; [by split|done]|].
    intros [|i] line; simpl.
    + intros [= <-] _. simpl. done.
    + intros Hi Hlen. apply (IH2 i); [done|lia].
  - destruct (file_lines rest) as [|line lines].
    + split; [constructor; [by split|done]|].
      intros [|i] l; simpl; [lia|done].
    + apply Forall_cons in IH1 as [[Hne Hnl] Hrest].
      split.
      * constructor; [|done]. split; [done|].
        destruct line as [|b line]; [done|].
        change (Ascii.eqb a "010"
                || has_char "010" (drop_last (String b line)) = false).
        by rewrite E, Hnl.
      * intros [|i] l; simpl.
        -- intros [= <-] Hlen.
           destruct line as [|b line]; [done|].
           rewrite endswith_cons. apply (IH2 0); [done|simpl in *; lia].
        -- intros Hi Hlen. apply (IH2 (S i)); [done|simpl in *; lia].
Qed.

Lemma file_lines_nil (content : string) :
  file_lines content = [] ↔ content = EmptyString.
Proof.
  split; [|by intros ->]. destruct content as [|a rest]; [done|]. simpl.
  destruct (Ascii.eqb a "010"); [done|]. by destruct (file_lines rest).
Qed.

Lemma decode_utf8_Ok (line decoded : string) :
  decode_utf8 line = Ok decoded → decoded = line.
Proof. unfold decode_utf8. destruct (is_ascii line); by intros [= <-]. Qed.

(** X15.  [extract_data] hands back the exception of the storage client when
    the download fails.  Otherwise the lines it returns, put end to end, are
    the content of the object; no line is empty or holds a [\n] before its
    last character; every line but the last ends with [\n]; and there is no
    line at all exactly when the object is empty.  (A byte above 127 takes
    the run out of the model.) *)
Theorem extract_data_lines (download_fileobj : string → string → result string)
    (file_name bucket : string) :
  match extract_data download_fileobj file_name bucket with
  | Ok lines =>
      ∃ content,
        download_fileobj bucket file_name = Ok content ∧
        join EmptyString lines = content ∧
        Forall is_line lines ∧
        (∀ i line, lines !! i = Some line → S i < length lines →
                   endswith "010" line = true) ∧
        (lines = [] ↔ content = EmptyString)
  | Raise e =>
      download_fileobj bucket file_name = Raise e ∨
      (e = OutOfModel ∧ ∃ content, download_fileobj bucket file_name = Ok content)
  end.
Proof.
  unfold extract_data.
  destruct (download_fileobj bucket file_name) as [content|e]; simpl; [|by left].
  destruct (mapM decode_utf8 (file_lines content)) as [lines|e] eqn:Hrun.
  - exists content. split; [done|].
    assert (lines = file_lines content) as ->.
    { apply mapM_Ok_Forall2 in Hrun.
      induction Hrun as [|x y ? ? Hxy _ IH]; [done|].
      by rewrite IH, (decode_utf8_Ok _ _ Hxy). }
    split; [apply file_lines_join|].
    split; [apply file_lines_shape|].
    split; [apply file_lines_shape|apply file_lines_nil].
  - right. split; [|by eexists].
    apply mapM_Raise_Exists, Exists_exists in Hrun as (line & _ & Hline).
    unfold decode_utf8 in Hline.
    destruct (is_ascii line); [done|]. by injection Hline as <-.
Qed.
